(** * Annotation store: a shallow embedding of [Annotation.py]

    The development follows the class [Annotation]: an SQLite file with the
    tables [frames], [classes] and [session], the video capture that goes with
    it, and the label export.  Tables are lists of rows in rowid order, which
    is the order in which SQLite scans a table that has no index; the
    connection holds the rows as the open transaction sees them, the file
    system holds what has been committed. *)

From Stdlib Require Import ZArith QArith String Ascii List Lia Sorted.
From Stdlib Require Import Decimal DecimalString DecimalZ DecimalPos.
From stdpp Require Import base option list gmap strings.

Local Open Scope Z_scope.
Local Open Scope string_scope.

(** ** Python text primitives used by the store *)

Module Py.

(** [str(n)] for an [int]. *)
Definition str (n : Z) : string := NilZero.string_of_int (Z.to_int n).

(** [int(s)] for a text without surrounding blanks: an optional sign and at
    least one decimal digit; [None] stands for [ValueError]. *)
Definition int (s : string) : option Z :=
  match s with
  | String "-" s' => (λ d, Z.of_int (Neg d)) <$> NilZero.uint_of_string s'
  | String "+" s' => (λ d, Z.of_int (Pos d)) <$> NilZero.uint_of_string s'
  | _ => (λ d, Z.of_int (Pos d)) <$> NilZero.uint_of_string s
  end.

(** [sep.join(xs)] *)
Fixpoint join (sep : string) (xs : list string) : string :=
  match xs with
  | [] => ""
  | [x] => x
  | x :: rest => x ++ sep ++ join sep rest
  end.

(** [c.isspace()] on the first 256 code points. *)
Definition isspace (c : ascii) : bool :=
  let n := nat_of_ascii c in
  ((9 <=? n)%nat && (n <=? 13)%nat) || ((28 <=? n)%nat && (n <=? 32)%nat)
  || (n =? 133)%nat || (n =? 160)%nat.

(** [s.split()]: maximal runs of non-blank characters, [tok] being the run
    read so far. *)
Fixpoint split_from (s tok : string) : list string :=
  match s with
  | EmptyString => if decide (tok = "") then [] else [tok]
  | String c s' =>
      if isspace c
      then (if decide (tok = "") then split_from s' "" else tok :: split_from s' "")
      else split_from s' (tok ++ String c "")
  end.

Definition split (s : string) : list string := split_from s "".

(** [[f(x) for x in xs]] where [f] may raise. *)
Fixpoint traverse {A B} (f : A → option B) (xs : list A) : option (list B) :=
  match xs with
  | [] => Some []
  | x :: rest =>
      match f x, traverse f rest with
      | Some y, Some ys => Some (y :: ys)
      | _, _ => None
      end
  end.

End Py.

(** ** The durable tables *)

(** A row of [frames (frame integer, object integer, class text, contour text,
    final integer)]. *)
Record row := Row {
  r_frame : Z;
  r_object : Z;
  r_class : string;
  r_contour : string;
  r_final : Z
}.

Record db := Db {
  frames : list row;
  classes : list string;            (* class_name text unique *)
  session : list (string * Z)       (* video_file, current_frame *)
}.

Definition empty_db : db := Db [] [] [].

Global Instance row_eq_dec : EqDecision row.
Proof. solve_decision. Defined.

Global Instance db_eq_dec : EqDecision db.
Proof. solve_decision. Defined.

(** Pixels and images.  A colour is an RGB triple; a colour canvas and a
    16-bit label image are lists of pixel rows. *)
Definition color : Type := Z * Z * Z.
Definition canvas : Type := list (list color).
Definition label_image : Type := list (list Z).

(** What a path of the file system may hold. *)
Inductive file :=
| FAnnotation (d : db)       (* an SQLite file with the three tables *)
| FBlankDb                   (* a database file without tables, as [connect] creates it *)
| FOther                     (* anything that is not a database: a video, say *)
| FTiff (img : label_image)
| FPng (img : canvas).

Global Instance file_eq_dec : EqDecision file.
Proof. solve_decision. Defined.

(** ** Exceptions *)

Inductive exn :=
| ValueError (msg : string)
| VideoLoadError (msg : string)
| AnnotationFileError (msg : string)
| DatabaseError              (* sqlite3.DatabaseError and OperationalError *)
| IntegrityError             (* sqlite3.IntegrityError *)
| ProgrammingError           (* sqlite3.ProgrammingError: closed connection *)
| AttributeError
| TypeError
| IndexError
| KeyError
| OSError
| SameFileError
| RuntimeError.              (* a StopIteration that leaves a generator *)

Global Instance exn_eq_dec : EqDecision exn.
Proof. solve_decision. Defined.

(** [except lite.DatabaseError] also catches the subclasses. *)
Definition is_DatabaseError (e : exn) : bool :=
  match e with
  | DatabaseError | IntegrityError | ProgrammingError => true
  | _ => false
  end.

Inductive result (A : Type) :=
| Ok (a : A)
| Raise (e : exn).
Arguments Ok {A} a.
Arguments Raise {A} e.

(** ** The session object and the world around it *)

(** An opened [cv2.VideoCapture]: its frame count, and the frame read after
    positioning at a 0-based index ([None] when [read] reports failure). *)
Record capture := Capture {
  cap_frame_count : Z;
  cap_read : Z → option canvas
}.

(** A [sqlite3] connection with its cursor: the file it is bound to, the
    tables as the open transaction sees them ([None] when the file has no
    tables or is not a database), and whether it is still open. *)
Record sqlite_connection := Conn {
  conn_path : string;
  conn_db : option db;
  conn_open : bool
}.

(** The attributes of an [Annotation] object, together with the file system
    it works on (keyed by absolute path). *)
Record annotation := Annotation {
  _filename : option string;
  _video_filename : option string;
  cap : option capture;
  _num_frames : Z;
  _current_frame : Z;
  connection : option sqlite_connection;
  disk : gmap string file
}.

Definition set_filename (v : option string) (st : annotation) : annotation :=
  Annotation v (_video_filename st) (cap st) (_num_frames st) (_current_frame st)
             (connection st) (disk st).
Definition set_video_filename (v : option string) (st : annotation) : annotation :=
  Annotation (_filename st) v (cap st) (_num_frames st) (_current_frame st)
             (connection st) (disk st).
Definition set_cap (v : option capture) (st : annotation) : annotation :=
  Annotation (_filename st) (_video_filename st) v (_num_frames st) (_current_frame st)
             (connection st) (disk st).
Definition set_num_frames (v : Z) (st : annotation) : annotation :=
  Annotation (_filename st) (_video_filename st) (cap st) v (_current_frame st)
             (connection st) (disk st).
Definition set_current_frame (v : Z) (st : annotation) : annotation :=
  Annotation (_filename st) (_video_filename st) (cap st) (_num_frames st) v
             (connection st) (disk st).
Definition set_connection (v : option sqlite_connection) (st : annotation) : annotation :=
  Annotation (_filename st) (_video_filename st) (cap st) (_num_frames st) (_current_frame st)
             v (disk st).
Definition set_disk (v : gmap string file) (st : annotation) : annotation :=
  Annotation (_filename st) (_video_filename st) (cap st) (_num_frames st) (_current_frame st)
             (connection st) v.

(** ** A state and exception monad for the methods

    A method is a function from the object before the call to its outcome and
    the object after it; an exception keeps whatever had been mutated when it
    was raised. *)

Definition M (A : Type) : Type := annotation → result A * annotation.

Definition ret {A} (a : A) : M A := λ st, (Ok a, st).
Definition raise {A} (e : exn) : M A := λ st, (Raise e, st).
Definition bind {A B} (m : M A) (k : A → M B) : M B :=
  λ st, match m st with
        | (Ok a, st') => k a st'
        | (Raise e, st') => (Raise e, st')
        end.
Definition gets {A} (f : annotation → A) : M A := λ st, (Ok (f st), st).
Definition modify (f : annotation → annotation) : M unit := λ st, (Ok tt, f st).

(** [try: m except C: h] where [catches] recognises the class [C]. *)
Definition try_except {A} (m : M A) (catches : exn → bool) (h : M A) : M A :=
  λ st, match m st with
        | (Raise e, st') => if catches e then h st' else (Raise e, st')
        | r => r
        end.

Declare Scope method_scope.
Delimit Scope method_scope with method.
Notation "'let!' x ':=' m 'in' k" := (bind m (λ x, k))
  (at level 10, x name, m at level 100, k at level 200) : method_scope.
Notation "m '>>' k" := (bind m (λ _, k))
  (at level 100, k at level 200, right associativity) : method_scope.
Local Open Scope method_scope.

(** [for x in xs: body(x)] *)
Fixpoint for_each {A} (xs : list A) (body : A → M unit) : M unit :=
  match xs with
  | [] => ret tt
  | x :: rest => body x >> for_each rest body
  end.

(** ** The sqlite3 layer *)

Section Session.

(** [os.path.abspath], for a working directory that stays the same, and
    [cv2.VideoCapture]: [None] when [isOpened()] is false. *)
Variable abspath : string → string.
Variable VideoCapture : string → option capture.

(** [os.path.exists(p)] and [os.path.isfile(p)]; directories are not modelled. *)
Definition path_exists (p : string) : M bool :=
  gets (λ st, bool_decide (is_Some (disk st !! abspath p))).

(** [os.remove(p)] *)
Definition os_remove (p : string) : M unit :=
  λ st, match disk st !! abspath p with
        | Some _ => (Ok tt, set_disk (delete (abspath p) (disk st)) st)
        | None => (Raise OSError, st)
        end.

(** [shutil.copy(src, dst)] between regular files. *)
Definition shutil_copy (src dst : string) : M unit :=
  λ st, match disk st !! abspath src with
        | None => (Raise OSError, st)
        | Some f =>
            if decide (abspath src = abspath dst) then (Raise SameFileError, st)
            else (Ok tt, set_disk (<[abspath dst := f]> (disk st)) st)
        end.

(** [self.connection = lite.connect(p); self.cursor = self.connection.cursor()].
    A missing file is created without tables. *)
Definition connect (p : string) : M unit :=
  λ st, let k := abspath p in
        match disk st !! k with
        | Some (FAnnotation d) => (Ok tt, set_connection (Some (Conn k (Some d) true)) st)
        | Some _ => (Ok tt, set_connection (Some (Conn k None true)) st)
        | None =>
            (Ok tt, set_connection (Some (Conn k None true))
                      (set_disk (<[k := FBlankDb]> (disk st)) st))
        end.

(** The tables a statement of [self.cursor] runs on. *)
Definition cursor_db : M (sqlite_connection * db) :=
  λ st, match connection st with
        | None => (Raise AttributeError, st)
        | Some c =>
            if conn_open c then
              match conn_db c with
              | Some d => (Ok (c, d), st)
              | None => (Raise DatabaseError, st)
              end
            else (Raise ProgrammingError, st)
        end.

(** [self.cursor.execute('SELECT ...')] followed by a fetch. *)
Definition query {A} (q : db → A) : M A :=
  let! cd := cursor_db in ret (q cd.2).

(** [self.cursor.execute(...)] of an INSERT, UPDATE or DELETE, which may be
    refused by a constraint.  The change stays in the open transaction. *)
Definition execute (u : db → result db) : M unit :=
  let! cd := cursor_db in
  match u cd.2 with
  | Ok d' => modify (set_connection (Some (Conn (conn_path cd.1) (Some d') true)))
  | Raise e => raise e
  end.

(** [self.connection.commit()] *)
Definition commit : M unit :=
  λ st, match connection st with
        | None => (Raise AttributeError, st)
        | Some c =>
            if conn_open c then
              match conn_db c with
              | Some d => (Ok tt, set_disk (<[conn_path c := FAnnotation d]> (disk st)) st)
              | None => (Ok tt, st)
              end
            else (Raise ProgrammingError, st)
        end.

(** What the file says once the open transaction is discarded. *)
Definition committed_db (c : sqlite_connection) (fs : gmap string file) : option db :=
  match fs !! conn_path c with
  | Some (FAnnotation d) => Some d
  | _ => None
  end.

(** The three [CREATE TABLE] statements of [create]; they take effect at once. *)
Definition create_tables : M unit :=
  λ st, match connection st with
        | None => (Raise AttributeError, st)
        | Some c =>
            if conn_open c then
              match disk st !! conn_path c with
              | Some FBlankDb =>
                  (Ok tt, set_connection (Some (Conn (conn_path c) (Some empty_db) true))
                            (set_disk (<[conn_path c := FAnnotation empty_db]> (disk st)) st))
              | _ => (Raise DatabaseError, st)
              end
            else (Raise ProgrammingError, st)
        end.

(** ** Queries and mutations of the record tables *)

Definition current_frame : M Z := gets _current_frame.
Definition filename : M (option string) := gets _filename.
Definition num_frames : M Z := gets _num_frames.

(** [SELECT max(object) from frames]: NULL on an empty table. *)
Definition sql_max (xs : list Z) : option Z :=
  match xs with
  | [] => None
  | x :: rest => Some (foldl Z.max x rest)
  end.

Definition get_max_id : M Z :=
  let! m := query (λ d, sql_max (r_object <$> frames d)) in
  match m with
  | Some max_id => ret max_id
  | None => ret 0            (* int(None) raises TypeError *)
  end.

Definition exit : M unit := commit.

Definition add_class (class_name : string) : M unit :=
  execute (λ d, if decide (class_name ∈ classes d) then Raise IntegrityError
                else Ok (Db (frames d) (classes d ++ [class_name]) (session d))).

Definition contour_text (contour : list Z) : string :=
  Py.join " " (Py.str <$> contour).

Definition add (frame_number object_id : Z) (class_name : string)
    (contour : list Z) (final : bool) : M unit :=
  execute (λ d, Ok (Db (frames d ++ [Row frame_number object_id class_name
                                          (contour_text contour)
                                          (if final then 1 else 0)])
                       (classes d) (session d))) >>
  commit.

Definition update_frames (f : list row → list row) (d : db) : result db :=
  Ok (Db (f (frames d)) (classes d) (session d)).

Definition remove (object_id : Z) (frame : option Z) : M unit :=
  match frame with
  | None => execute (update_frames (filter (λ r, r_object r ≠ object_id)))
  | Some f =>
      execute (update_frames (filter (λ r, ¬ (r_object r = object_id ∧ r_frame r = f))))
  end >>
  commit.

Definition get (frame_number : Z) (obj_id : option Z) : M (list row) :=
  match obj_id with
  | Some o =>
      query (λ d, filter (λ r, r_frame r = frame_number ∧ r_object r = o) (frames d))
  | None => query (λ d, filter (λ r, r_frame r = frame_number) (frames d))
  end.

Definition with_class (c : string) (r : row) : row :=
  Row (r_frame r) (r_object r) c (r_contour r) (r_final r).
Definition with_final (v : Z) (r : row) : row :=
  Row (r_frame r) (r_object r) (r_class r) (r_contour r) v.
Definition with_object_class (o : Z) (c : string) (r : row) : row :=
  Row (r_frame r) o c (r_contour r) (r_final r).

Definition change_class (obj_id : Z) (class_name : string) : M unit :=
  execute (update_frames (fmap (λ r, if decide (r_object r = obj_id)
                                     then with_class class_name r else r))) >>
  commit.

Definition finalize_object (obj_id frame_number : Z) : M unit :=
  execute (update_frames (fmap (λ r, if decide (r_object r = obj_id ∧ r_frame r = frame_number)
                                     then with_final 1 r else r))) >>
  commit.

Definition finalize_frame (frame_number : Z) : M unit :=
  execute (update_frames (fmap (λ r, if decide (r_frame r = frame_number)
                                     then with_final 1 r else r))) >>
  commit.

(** A text between double quotes, for the messages. *)
Definition quoted (s : string) : string :=
  String (ascii_of_nat 34) s ++ String (ascii_of_nat 34) "".

(** The rows of one object, in table order. *)
Definition rows_of (o : Z) (rows : list row) : list row :=
  filter (λ r, r_object r = o) rows.

Definition combine_objects (from_id to_id : Z) : M unit :=
  if (from_id <=? 0)%Z || (to_id <=? 0)%Z
  then raise (ValueError "object ID's must be positive integers")
  else
    let! from_rows := query (λ d, rows_of from_id (frames d)) in
    if decide (from_rows = [])
    then raise (ValueError ("Error: " ++ quoted "From ID" ++ " is not exist"))
    else
      let! to_rows := query (λ d, rows_of to_id (frames d)) in
      if decide (to_rows = [])
      then raise (ValueError ("Error: " ++ quoted "To ID" ++ " is not exist"))
      else
        let! shared :=
          query (λ d, filter (λ r, r_object r = from_id
                                   ∧ r_frame r ∈ (r_frame <$> rows_of to_id (frames d)))
                             (frames d)) in
        if decide (shared = [])
        then
          let! limit1 := query (λ d, r_class <$> take 1 (rows_of to_id (frames d))) in
          match limit1 with
          | class_to_id :: _ =>
              execute (update_frames
                         (fmap (λ r, if decide (r_object r = from_id)
                                     then with_object_class to_id class_to_id r
                                     else r))) >>
              commit
          | [] => raise IndexError
          end
        else raise (ValueError "Error: There are frames with both objects").

(** [np.array(data)] of rows that hold text turns every cell into text, so
    the frame numbers are read back with [int]. *)
Definition get_frames_indexes_of_id (obj_id : Z) : M (list Z) :=
  let! data := query (λ d, rows_of obj_id (frames d)) in
  if decide (data = []) then ret []
  else
    match Py.traverse (λ r, Py.int (Py.str (r_frame r))) data with
    | Some data_frames => ret data_frames
    | None => raise (ValueError "invalid literal for int()")
    end.

Definition classes_list : M (list string) := query classes.

(** ** Session life cycle *)

Definition SUFFIX : string := ".atc".
Definition TEMP_WORKING_FILENAME : string := ".working" ++ SUFFIX.

Definition is_file_saved : M bool :=
  gets (λ st, bool_decide (_filename st ≠ Some (abspath TEMP_WORKING_FILENAME))).

Definition close : M unit :=
  λ st, match connection st with
        | Some c => (Ok tt, set_connection (Some (Conn (conn_path c) None false)) st)
        | None => (Ok tt, st)
        end.

Definition set_frame (frame_number : Z) : M unit :=
  let! n := num_frames in
  if (frame_number <? 1)%Z || (n <? frame_number)%Z
  then ret tt                                   (* logging.warning *)
  else
    modify (set_current_frame frame_number) >>
    execute (λ d, Ok (Db (frames d) (classes d)
                         ((λ s, (s.1, frame_number)) <$> session d))) >>
    commit.

(** Reads at [_current_frame - 1]: OpenCV counts frames from 0. *)
Definition get_frame_image : M (option canvas) :=
  λ st, match cap st with
        | None => (Ok None, st)
        | Some c =>
            match cap_read c (_current_frame st - 1) with
            | Some frame => (Ok (Some frame), st)
            | None =>
                (Raise (VideoLoadError ("error reading frame " ++ Py.str (_current_frame st))),
                 st)
            end
        end.

Definition open_video (video_filename : string) : M unit :=
  match VideoCapture video_filename with
  | None =>
      modify (set_cap None) >>
      raise (VideoLoadError ("failed to open video " ++ video_filename
                             ++ ". file might have been moved or corrupted"))
  | Some c =>
      modify (set_cap (Some c)) >>
      modify (set_num_frames (cap_frame_count c)) >>
      modify (set_video_filename (Some video_filename))
  end.

Definition create (video_filename annotation_filename : string) : M unit :=
  let! isfile := path_exists video_filename in
  if negb isfile
  then raise (VideoLoadError ("Video Read Error: no such file " ++ video_filename))
  else
    open_video video_filename >>
    modify (set_current_frame 1) >>
    modify (set_filename (Some annotation_filename)) >>
    connect annotation_filename >>
    create_tables >>
    execute (λ d, Ok (Db (frames d) (classes d) (session d ++ [(video_filename, 1)]))).

Definition load (filename : string) : M unit :=
  try_except
    (connect filename >>
     let! params := query (λ d, head (session d)) in
     match params with
     | None => raise TypeError                 (* params[0] of None *)
     | Some (video_filename, frame) =>
         open_video video_filename >>
         modify (set_filename (Some filename)) >>
         set_frame frame
     end)
    is_DatabaseError
    (raise (AnnotationFileError ("error reading annotation " ++ filename
                                 ++ ". file might be corrupted"))).

Definition save (filename : string) : M unit :=
  let! bound := gets _filename in
  if decide (Some filename ≠ bound) then
    if decide (filename = TEMP_WORKING_FILENAME)
    then raise (ValueError "Illegal filename")
    else
      commit >>
      close >>
      match bound with
      | Some src => shutil_copy src filename
      | None => raise TypeError
      end >>
      (if decide (bound = Some TEMP_WORKING_FILENAME)
       then os_remove TEMP_WORKING_FILENAME else ret tt) >>
      load filename >>
      let! stale := path_exists TEMP_WORKING_FILENAME in
      if stale then os_remove TEMP_WORKING_FILENAME else ret tt
  else ret tt.

(** [os.path.splitext(p)[1]]: the text from the last dot of the last path
    component, leading dots of that component not counting. *)
Fixpoint after_last (c : ascii) (s : string) : option string :=
  match s with
  | EmptyString => None
  | String a s' =>
      match after_last c s' with
      | Some t => Some t
      | None => if decide (a = c) then Some s' else None
      end
  end.

Fixpoint lstrip_dots (s : string) : string :=
  match s with
  | String "." s' => lstrip_dots s'
  | _ => s
  end.

Definition extension (p : string) : string :=
  let base := default p (after_last "/" p) in
  match after_last "." (lstrip_dots base) with
  | Some e => String "." e
  | None => ""
  end.

(** The attributes as [__init__] sets them before it looks at the file. *)
Definition unbound (fs : gmap string file) : annotation :=
  Annotation None None None 0 0 None fs.

Definition init (filename : string) : M unit :=
  modify (λ st, unbound (disk st)) >>
  let! found := path_exists filename in
  if negb found
  then raise (AnnotationFileError ("failed to open annotation " ++ filename))
  else if decide (extension filename = SUFFIX) then load filename
  else
    let temp_filename := abspath TEMP_WORKING_FILENAME in
    let! leftover := path_exists temp_filename in
    (if leftover then os_remove temp_filename else ret tt) >>
    create filename temp_filename.

End Session.

(** ** Label export *)

Section LabelExport.

Variable abspath : string → string.

(** The Qt side: [QPainter.drawPolygon] with pen and brush of one colour, and
    the progress dialog's [wasCanceled()] at each step of the loop. *)
Variable drawPolygon : canvas → list (Z * Z) → color → canvas.
Variable wasCanceled : nat → bool.

(** Whether the file system lets a file be made at an absolute path: its
    directory is there and takes it.  Where it does not, [QImage.save] and
    [cv2.imwrite] return [False], which [export] does not look at. *)
Variable writable : string → bool.

(** [QImage(w, h, Format_RGB888)] after [fill(0)]. *)
Definition blank_image (shape : Z * Z) : canvas :=
  replicate (Z.to_nat shape.2) (replicate (Z.to_nat shape.1) (0, 0, 0)).

(** [np.zeros(shape[::-1], dtype=np.uint16)] *)
Definition zeros (shape : Z * Z) : label_image :=
  replicate (Z.to_nat shape.2) (replicate (Z.to_nat shape.1) 0).

(** [colormap[:, i]] for an array of [N] columns: negative indexes count from
    the end, anything else out of range raises [IndexError]. *)
Definition column (colormap : list color) (i : Z) : option color :=
  let n := Z.of_nat (length colormap) in
  if (0 <=? i)%Z && (i <? n)%Z then colormap !! Z.to_nat i
  else if (- n <=? i)%Z && (i <? 0)%Z then colormap !! Z.to_nat (n + i)
  else None.

(** [zip(points[::2], points[1::2])] *)
Fixpoint couples (points : list Z) : list (Z * Z) :=
  match points with
  | x :: y :: rest => (x, y) :: couples rest
  | _ => []
  end.

(** [[int(s) for s in text.split()]] *)
Definition parse_points (text : string) : option (list Z) :=
  Py.traverse Py.int (Py.split text).

(** The loop that paints the records of one frame and notes their colours. *)
Fixpoint draw_records (colormap : list color) (records : list row)
    (qt_image : canvas) (frame_colors : list color) : result (canvas * list color) :=
  match records with
  | [] => Ok (qt_image, frame_colors)
  | r :: rest =>
      match parse_points (r_contour r) with
      | None => Raise (ValueError "invalid literal for int()")
      | Some points =>
          match column colormap (r_object r) with
          | None => Raise IndexError
          | Some rgb =>
              draw_records colormap rest
                (drawPolygon qt_image (couples points) rgb)
                (frame_colors ++ [rgb])
          end
      end
  end.

(** [cv2.inRange(img, lo, hi)]: 255 where every channel lies within the
    bounds, 0 elsewhere. *)
Definition within (lo hi px : color) : bool :=
  (lo.1.1 <=? px.1.1)%Z && (px.1.1 <=? hi.1.1)%Z &&
  (lo.1.2 <=? px.1.2)%Z && (px.1.2 <=? hi.1.2)%Z &&
  (lo.2 <=? px.2)%Z && (px.2 <=? hi.2)%Z.

(** An operation applied to every element of a two-dimensional array. *)
Definition elementwise {A B} (f : A → B) (img : list (list A)) : list (list B) :=
  (λ line : list A, f <$> line) <$> img.

Definition inRange (img : canvas) (lo hi : color) : list (list Z) :=
  elementwise (λ px, if within lo hi px then 255 else 0) img.

(** Bytes in a scan line of a [Format_RGB888] image: three for a pixel, the
    line padded to a multiple of four. *)
Definition bytesPerLine (width : Z) : Z := (width * 24 + 31) `div` 32 * 4.

(** [qimage2cv]: the buffer of the image, [height * bytesPerLine] bytes, taken
    as one array and reshaped to height x width x 3, which NumPy refuses when
    the sizes differ.  The image has the shape it was made with; one without
    pixels is null and has no buffer to size. *)
Definition qimage2cv (shape : Z * Z) (qt_image : canvas) : result canvas :=
  if decide (shape.1 ≤ 0 ∨ shape.2 ≤ 0)%Z then Raise AttributeError
  else if decide (shape.2 * bytesPerLine shape.1 = shape.2 * shape.1 * 3)%Z
       then Ok qt_image
       else Raise (ValueError "cannot reshape array").

(** [a / d] on an array of integers: true division, an array of [float64]. *)
Definition true_divide (a : list (list Z)) (d : Z) : list (list Q) :=
  elementwise (λ v, inject_Z v / inject_Z d)%Q a.

(** [k * mask] for a number and an array of [float64]. *)
Definition scaled (k : Z) (mask : list (list Q)) : list (list Q) :=
  elementwise (λ v, inject_Z k * v)%Q mask.

(** [a += x] for [a] of type [uint16] and [x] of type [float64]: the sum is
    of type [float64], and NumPy does not cast it back into [a] under its
    same-kind rule. *)
Definition iadd (a : label_image) (x : list (list Q)) : result label_image :=
  Raise TypeError.

Definition imwrite (path : string) (img : label_image) : M unit :=
  modify (λ st, if writable (abspath path)
                then set_disk (<[abspath path := FTiff img]> (disk st)) st
                else st).

Definition qimage_save (path : string) (img : canvas) : M unit :=
  modify (λ st, if writable (abspath path)
                then set_disk (<[abspath path := FPng img]> (disk st)) st
                else st).

(** The loop over the colours of a frame; the file would be rewritten after
    each one. *)
Fixpoint decode_colors (cv_image : canvas) (inverse_colormap : gmap color Z)
    (path : string) (frame_colors : list color) (result : label_image) : M unit :=
  match frame_colors with
  | [] => ret tt
  | c :: rest =>
      let mask := true_divide (inRange cv_image c c) 255 in
      match inverse_colormap !! c with
      | None => raise KeyError
      | Some k =>
          match iadd result (scaled k mask) with
          | Raise e => raise e
          | Ok result' =>
              imwrite path result' >>
              decode_colors cv_image inverse_colormap path rest result'
          end
      end
  end.

Definition export_frame (shape : Z * Z) (dirname filename : string) (f : Z)
    (colormap : list color) (inverse_colormap : gmap color Z) (suffix : string) : M unit :=
  let! records := get f None in
  match draw_records colormap records (blank_image shape) [] with
  | Raise e => raise e
  | Ok (qt_image, frame_colors) =>
      if decide (frame_colors = []) then ret tt         (* continue *)
      else if decide (suffix = ".tiff") then
        match qimage2cv shape qt_image with
        | Raise e => raise e
        | Ok cv_image =>
            decode_colors cv_image inverse_colormap
              (dirname ++ "/" ++ filename ++ Py.str f ++ ".tiff") frame_colors (zeros shape)
        end
      else qimage_save (dirname ++ "/" ++ filename ++ Py.str f ++ ".png") qt_image
  end.

(** [for i in progress(range(len(frames)), ...)], the loop being at step [i].
    The generator [progress] raises [StopIteration] when the dialog has been
    cancelled; raised inside a generator it reaches the loop as
    [RuntimeError]. *)
Fixpoint export_from (i : nat) (shape : Z * Z) (dirname filename : string)
    (frames : list Z) (colormap : list color) (inverse_colormap : gmap color Z)
    (suffix : string) : M unit :=
  match frames with
  | [] => ret tt
  | f :: rest =>
      if wasCanceled i then raise RuntimeError
      else
        export_frame shape dirname filename f colormap inverse_colormap suffix >>
        export_from (S i) shape dirname filename rest colormap inverse_colormap suffix
  end.

Definition export (shape : Z * Z) (dirname filename : string) (frames : list Z)
    (colormap : list color) (inverse_colormap : gmap color Z) (suffix : string) : M unit :=
  export_from 0 shape dirname filename frames colormap inverse_colormap suffix.

End LabelExport.

(** ** Derived notions used in the statements *)

(** The tables an open connection works on. *)
Definition view (st : annotation) : option db :=
  match connection st with
  | Some c => if conn_open c then conn_db c else None
  | None => None
  end.

(** The tables found in the file the connection is bound to. *)
Definition stored (st : annotation) : option db :=
  match connection st with
  | Some c => committed_db c (disk st)
  | None => None
  end.

(** Nothing of the open transaction is missing from the file. *)
Definition durable (st : annotation) : Prop :=
  is_Some (view st) ∧ stored st = view st.

(** The object once a statement has left [d] in the open transaction, and
    once [d] has been committed to the file at [p]. *)
Definition with_view (p : string) (d : db) (st : annotation) : annotation :=
  set_connection (Some (Conn p (Some d) true)) st.
Definition written (p : string) (d : db) (st : annotation) : annotation :=
  set_disk (<[p := FAnnotation d]> (disk st)) st.

(** The frames an object occupies, in table order. *)
Definition occupancy (o : Z) (d : db) : list Z := r_frame <$> rows_of o (frames d).

(** No object appears twice in a frame. *)
Definition occupancy_unique (rows : list row) : Prop :=
  NoDup ((λ r, (r_frame r, r_object r)) <$> rows).

Fixpoint all_chars (p : ascii → bool) (s : string) : bool :=
  match s with
  | EmptyString => true
  | String c s' => p c && all_chars p s'
  end.

Definition is_digit (c : ascii) : bool :=
  let n := nat_of_ascii c in (48 <=? n)%nat && (n <=? 57)%nat.

Definition printable (c : ascii) : bool := negb (Py.isspace c).

(** The tables after [add] and after a successful [combine_objects]. *)
Definition added (frame_number object_id : Z) (class_name : string)
    (contour : list Z) (final : bool) (d : db) : db :=
  Db (frames d ++ [Row frame_number object_id class_name (contour_text contour)
                       (if final then 1 else 0)])
     (classes d) (session d).

Definition merged (from_id to_id : Z) (class_to_id : string) (d : db) : db :=
  Db ((λ r, if decide (r_object r = from_id)
            then with_object_class to_id class_to_id r else r) <$> frames d)
     (classes d) (session d).

(** The tables after [set_frame] and after [add_class]. *)
Definition with_cursor (n : Z) (d : db) : db :=
  Db (frames d) (classes d) ((λ s, (s.1, n)) <$> session d).
Definition with_new_class (class_name : string) (d : db) : db :=
  Db (frames d) (classes d ++ [class_name]) (session d).

(** The rows the overlap query of [combine_objects] selects. *)
Definition shared_rows (from_id to_id : Z) (d : db) : list row :=
  filter (λ r, r_object r = from_id ∧ r_frame r ∈ (r_frame <$> rows_of to_id (frames d)))
         (frames d).

(** The two objects meet in some frame. *)
Definition share_frame (a b : Z) (d : db) : Prop :=
  ∃ f, f ∈ occupancy a d ∧ f ∈ occupancy b d.

(** The integers SQLite stores and takes as parameters of a statement:
    signed, of 64 bits.  Binding any other makes [execute] raise
    [OverflowError] before the statement runs. *)
Definition sqlite_integer (z : Z) : Prop := (- 2 ^ 63 ≤ z < 2 ^ 63)%Z.

(** ** Derived notions for the export *)

Definition color_of (colormap : list color) (o : Z) : color :=
  default (0, 0, 0) (column colormap o).

Definition frame_records (f : Z) (d : db) : list row :=
  filter (λ r, r_frame r = f) (frames d).

(** The name [export] gives the image of frame [f]. *)
Definition image_path (dirname filename : string) (f : Z) : string :=
  dirname ++ "/" ++ filename ++ Py.str f ++ ".png".

(** A record that [export] can paint: its contour reads as integers (as any
    contour written by [add] does) and its object id has a column in the
    colormap. *)
Definition paintable (colormap : list color) (r : row) : Prop :=
  is_Some (parse_points (r_contour r)) ∧ is_Some (column colormap (r_object r)).

(** The canvas on which the records [rs] have been painted. *)
Definition painted (drawPolygon : canvas → list (Z * Z) → color → canvas)
    (shape : Z * Z) (colormap : list color) (rs : list row) : canvas :=
  match draw_records drawPolygon colormap rs (blank_image shape) [] with
  | Ok (qt_image, _) => qt_image
  | Raise _ => blank_image shape
  end.

(** The file system after the image of frame [f] has been saved: as it was
    when the frame has no record or the file cannot be made. *)
Definition write_artifact (abspath : string → string)
    (drawPolygon : canvas → list (Z * Z) → color → canvas) (writable : string → bool)
    (shape : Z * Z) (dirname filename : string) (colormap : list color) (d : db)
    (fs : gmap string file) (f : Z) : gmap string file :=
  let path := abspath (image_path dirname filename f) in
  if decide (frame_records f d = []) then fs
  else if writable path
       then <[path := FPng (painted drawPolygon shape colormap (frame_records f d))]> fs
       else fs.

(** ** A small world to run the methods in *)

Module Demo.

(** A ten-frame video of one-pixel frames. *)
Definition movie : capture :=
  Capture 10 (λ i, if decide (0 ≤ i < 10)%Z then Some [[(0, 0, 0)]] else None).

Definition VideoCapture (p : string) : option capture :=
  if decide (p = "movie.mp4") then Some movie else None.

(** Paths are taken relative to [/cwd]. *)
Definition abspath (p : string) : string :=
  match p with
  | String "/" _ => p
  | _ => "/cwd/" ++ p
  end.

Definition files : gmap string file := {[ "/cwd/movie.mp4" := FOther ]}.

(** [Annotation('movie.mp4')] *)
Definition fresh : annotation :=
  (init abspath VideoCapture "movie.mp4" (unbound files)).2.

(** The same after [exit()]. *)
Definition committed : annotation := (exit fresh).2.

(** Object 1 annotated in frame 5 first and in frame 3 afterwards. *)
Definition out_of_order : annotation :=
  ((add 5 1 "car" [1; 2; 3; 4; 5; 6] true >> add 3 1 "car" [1; 2; 3; 4; 5; 6] false) fresh).2.

(** A later session that opens the working file left in the directory:
    [Annotation('.working.atc')]. *)
Definition reopened : annotation :=
  (init abspath VideoCapture ".working.atc" (unbound (disk committed))).2.

(** Object 1 (a car) in frames 1 and 2, object 2 (a bus) in frames 3 and 1:
    the two meet in frame 1. *)
Definition overlapping_db : db :=
  added 1 2 "bus" [4; 4; 6; 4; 6; 6] true
    (added 3 2 "bus" [4; 4; 6; 4; 6; 6] true
       (added 2 1 "car" [0; 0; 2; 0; 2; 2] true
          (added 1 1 "car" [0; 0; 2; 0; 2; 2] true (Db [] [] [("movie.mp4", 1)])))).

Definition overlapping : annotation :=
  ((add 1 1 "car" [0; 0; 2; 0; 2; 2] true >> add 2 1 "car" [0; 0; 2; 0; 2; 2] true >>
    add 3 2 "bus" [4; 4; 6; 4; 6; 6] true >> add 1 2 "bus" [4; 4; 6; 4; 6; 6] true) fresh).2.

(** Object 1 (a car) in frames 1 and 2, object 2 (a bus) in frames 3 and 4. *)
Definition disjoint_db : db :=
  added 4 2 "bus" [4; 4; 6; 4; 6; 6] false
    (added 3 2 "bus" [4; 4; 6; 4; 6; 6] true
       (added 2 1 "car" [0; 0; 2; 0; 2; 2] true
          (added 1 1 "car" [0; 0; 2; 0; 2; 2] true (Db [] [] [("movie.mp4", 1)])))).

Definition disjoint : annotation :=
  ((add 1 1 "car" [0; 0; 2; 0; 2; 2] true >> add 2 1 "car" [0; 0; 2; 0; 2; 2] true >>
    add 3 2 "bus" [4; 4; 6; 4; 6; 6] true >> add 4 2 "bus" [4; 4; 6; 4; 6; 6] false) fresh).2.

(** The store of [disjoint] once saved as [a.atc]. *)
Definition named : annotation := (save abspath VideoCapture "a.atc" disjoint).2.

(** A stand-in for the rasteriser that paints the vertices of the polygon. *)
Definition drawPolygon (img : canvas) (points : list (Z * Z)) (c : color) : canvas :=
  foldl (λ im p, alter (λ line : list color, <[Z.to_nat p.1 := c]> line) (Z.to_nat p.2) im)
        img points.

Definition wasCanceled (i : nat) : bool := false.

(** Every directory is there, but for [/nowhere]. *)
Definition writable (p : string) : bool :=
  negb (String.prefix "/nowhere/" p).

(** Four colours, and the dictionary that takes each back to its column. *)
Definition colormap : list color := [(0, 0, 0); (255, 0, 0); (0, 255, 0); (0, 0, 255)].
Definition inverse_colormap : gmap color Z := list_to_map (zip colormap (seqZ 0 4)).

End Demo.

(** * Properties *)

(** ** Texts *)

Lemma append_cons (c : ascii) (s t : string) : String c s ++ t = String c (s ++ t).
Proof. reflexivity. Qed.

Lemma append_empty_l (s : string) : "" ++ s = s.
Proof. reflexivity. Qed.

Lemma append_empty_r (s : string) : s ++ "" = s.
Proof. induction s as [|c s IH]; [reflexivity | now rewrite append_cons, IH]. Qed.

Lemma append_assoc (s t u : string) : (s ++ t) ++ u = s ++ (t ++ u).
Proof. induction s as [|c s IH]; [reflexivity | now rewrite !append_cons, IH]. Qed.

Lemma digits_of_uint (d : uint) : all_chars is_digit (NilEmpty.string_of_uint d) = true.
Proof. induction d; simpl; auto. Qed.

Lemma digits_of_uint_nilzero (d : uint) : all_chars is_digit (NilZero.string_of_uint d) = true.
Proof. destruct d; try exact (digits_of_uint _); reflexivity. Qed.

Lemma digit_not_space (c : ascii) : is_digit c = true → Py.isspace c = false.
Proof.
  destruct c as [[] [] [] [] [] [] [] []]; vm_compute; congruence.
Qed.

Lemma all_chars_impl (p q : ascii → bool) (s : string) :
  (∀ c, p c = true → q c = true) → all_chars p s = true → all_chars q s = true.
Proof.
  intros Hpq. induction s as [|c s IH]; simpl; [done|].
  intros [Hc Hs]%andb_prop. rewrite (Hpq _ Hc), (IH Hs). done.
Qed.

Lemma str_printable (n : Z) : all_chars printable (Py.str n) = true.
Proof.
  assert (Hd : ∀ d, all_chars printable (NilZero.string_of_uint d) = true).
  { intros d. eapply all_chars_impl; [|apply digits_of_uint_nilzero].
    intros c Hc. unfold printable. now rewrite (digit_not_space _ Hc). }
  unfold Py.str. destruct (Z.to_int n); simpl; [apply Hd|].
  fold (NilZero.string_of_uint d). now rewrite Hd.
Qed.

Lemma str_nonempty (n : Z) : Py.str n ≠ "".
Proof.
  unfold Py.str. destruct (Z.to_int n) as [d|d]; simpl; [|done].
  destruct d; done.
Qed.

(** [int(str(n)) == n] *)
Lemma int_str (n : Z) : Py.int (Py.str n) = Some n.
Proof.
  unfold Py.str. rewrite <- (DecimalZ.of_to n) at 2.
  destruct n as [|p|p]; [reflexivity| |]; simpl Z.to_int.
  - pose proof (DecimalPos.Unsigned.to_uint_nonnil p) as Hnil.
    pose proof (NilZero.usu _ Hnil) as Hu.
    destruct (Pos.to_uint p) eqn:E; [done| ..]; simpl in *; now rewrite Hu.
  - pose proof (DecimalPos.Unsigned.to_uint_nonnil p) as Hnil.
    simpl. now rewrite (NilZero.usu _ Hnil).
Qed.


Lemma traverse_int_str (l : list Z) : Py.traverse Py.int (Py.str <$> l) = Some l.
Proof.
  induction l as [|x l IH]; [done|].
  rewrite fmap_cons. cbn [Py.traverse]. now rewrite int_str, IH.
Qed.

Lemma split_from_run (t rest tok : string) :
  all_chars printable t = true →
  Py.split_from (t ++ rest) tok = Py.split_from rest (tok ++ t).
Proof.
  revert tok. induction t as [|c t IH]; intros tok.
  - intros _. now rewrite append_empty_r.
  - rewrite append_cons. simpl. intros [Hc Ht]%andb_prop. unfold printable in Hc.
    apply negb_true_iff in Hc. rewrite Hc, (IH _ Ht), append_assoc. done.
Qed.

Lemma split_join (ts : list string) :
  Forall (λ t, all_chars printable t = true ∧ t ≠ "") ts →
  Py.split (Py.join " " ts) = ts.
Proof.
  unfold Py.split. induction 1 as [|t ts [Ht Hne] Hts IH]; [done|].
  destruct ts as [|t' ts].
  - simpl. rewrite <- (append_empty_r t) at 1.
    rewrite split_from_run by done. simpl. rewrite append_empty_l.
    now destruct (decide (t = "")).
  - change (Py.join " " (t :: t' :: ts)) with (t ++ " " ++ Py.join " " (t' :: ts)).
    rewrite split_from_run by done. rewrite append_cons, append_empty_l.
    cbn [Py.split_from]. change (Py.isspace " ") with true. cbv iota.
    rewrite append_empty_l. destruct (decide (t = "")); [done|]. now rewrite IH.
Qed.

(** A contour written by [add] is read back by [export] as it was. *)
Lemma parse_contour_text (contour : list Z) :
  parse_points (contour_text contour) = Some contour.
Proof.
  unfold parse_points, contour_text. rewrite split_join.
  - apply traverse_int_str.
  - apply Forall_fmap, Forall_forall. intros n _. simpl.
    split; [apply str_printable | apply str_nonempty].
Qed.

(** ** The sqlite3 layer *)

Lemma view_Some (st : annotation) (d : db) :
  view st = Some d ↔ ∃ p, connection st = Some (Conn p (Some d) true).
Proof.
  unfold view. split.
  - destruct (connection st) as [[p o []]|]; simpl; intros; simplify_eq; eauto.
  - intros [p ->]. reflexivity.
Qed.

Lemma query_open {A} (q : db → A) st p d :
  connection st = Some (Conn p (Some d) true) → query q st = (Ok (q d), st).
Proof. intros H. unfold query, bind, cursor_db, ret. now rewrite H. Qed.

Lemma query_view {A} (q : db → A) st d :
  view st = Some d → query q st = (Ok (q d), st).
Proof. intros [p H]%view_Some. eapply query_open, H. Qed.


Lemma query_raise {A} (q : db → A) st e st' :
  query q st = (Raise e, st') → st' = st ∧ view st = None.
Proof.
  unfold query, bind, cursor_db, ret, view.
  destruct (connection st) as [[p [d|] []]|]; simpl; intros; simplify_eq; eauto.
Qed.

Lemma execute_open (u : db → result db) st p d d' :
  connection st = Some (Conn p (Some d) true) → u d = Ok d' →
  execute u st = (Ok tt, with_view p d' st).
Proof.
  intros H Hu. unfold execute, bind, cursor_db. rewrite H. simpl. now rewrite Hu.
Qed.

Lemma commit_open st p d :
  connection st = Some (Conn p (Some d) true) → commit st = (Ok tt, written p d st).
Proof. intros H. unfold commit. now rewrite H. Qed.

Lemma execute_commit (u : db → result db) st p d d' :
  connection st = Some (Conn p (Some d) true) → u d = Ok d' →
  (execute u >> commit) st = (Ok tt, written p d' (with_view p d' st)).
Proof.
  intros H Hu. unfold bind. rewrite (execute_open u st p d d' H Hu).
  now apply commit_open.
Qed.

Lemma bind_Ok {A B} (m : M A) (k : A → M B) st a st' :
  m st = (Ok a, st') → bind m k st = k a st'.
Proof. intros H. unfold bind. now rewrite H. Qed.

Lemma bind_Raise {A B} (m : M A) (k : A → M B) st e st' :
  m st = (Raise e, st') → bind m k st = (Raise e, st').
Proof. intros H. unfold bind. now rewrite H. Qed.

Lemma connection_written p q d d' st :
  connection (written q d' (with_view p d st)) = Some (Conn p (Some d) true).
Proof. reflexivity. Qed.

Lemma view_with_view p d st : view (with_view p d st) = Some d.
Proof. reflexivity. Qed.

Lemma view_written p d st : view (written p d st) = view st.
Proof. reflexivity. Qed.

Lemma durable_written p d st : durable (written p d (with_view p d st)).
Proof.
  split; [by eexists|]. unfold stored, committed_db. simpl.
  now rewrite lookup_insert_eq.
Qed.

(** ** Queries *)

Lemma sql_max_spec (x : Z) (rest : list Z) :
  foldl Z.max x rest ∈ x :: rest ∧ ∀ y, y ∈ x :: rest → (y ≤ foldl Z.max x rest)%Z.
Proof.
  revert x. induction rest as [|z rest IH]; intros x; simpl.
  - split; [left|]. intros y ->%list_elem_of_singleton. lia.
  - destruct (IH (Z.max x z)) as [Hin Hle]. split.
    + rewrite !elem_of_cons in *. destruct Hin as [Heq|Hin]; [|auto].
      rewrite Heq. destruct (Z.max_spec x z) as [[_ ->]|[_ ->]]; auto.
    + intros y Hy. pose proof (Hle (Z.max x z) ltac:(left)) as Hm.
      rewrite !elem_of_cons in Hy. destruct Hy as [->|[->|Hy]]; [lia|lia|].
      apply Hle. now right.
Qed.

Lemma get_frames_indexes_of_id_occupancy st d obj_id :
  view st = Some d →
  get_frames_indexes_of_id obj_id st = (Ok (occupancy obj_id d), st).
Proof.
  intros Hv. unfold get_frames_indexes_of_id, bind.
  rewrite (query_view _ st d Hv). unfold occupancy.
  destruct (decide (rows_of obj_id (frames d) = [])) as [->|_]; [done|].
  assert (H : ∀ l : list row,
             Py.traverse (λ r, Py.int (Py.str (r_frame r))) l = Some (r_frame <$> l)).
  { induction l as [|r l IH]; [done|]. rewrite fmap_cons. cbn [Py.traverse].
    now rewrite int_str, IH. }
  now rewrite H.
Qed.

Lemma elem_of_occupancy (o f : Z) (d : db) :
  f ∈ occupancy o d ↔ ∃ r, r ∈ frames d ∧ r_object r = o ∧ r_frame r = f.
Proof.
  unfold occupancy, rows_of. rewrite list_elem_of_fmap. split.
  - intros (r & -> & [Ho Hin]%list_elem_of_filter). eauto.
  - intros (r & Hin & Ho & <-). exists r. split; [done|].
    apply list_elem_of_filter. auto.
Qed.

Lemma NoDup_occupancy (o : Z) (d : db) :
  occupancy_unique (frames d) → NoDup (occupancy o d).
Proof.
  unfold occupancy_unique, occupancy, rows_of.
  induction (frames d) as [|r rows IH]; [intros _; constructor|].
  rewrite fmap_cons, NoDup_cons. intros [Hr Hrows].
  destruct (decide (r_object r = o)) as [Ho|Ho].
  - rewrite filter_cons_True by done. rewrite fmap_cons. apply NoDup_cons.
    split; [|auto]. intros (r' & Hf & [Ho' Hin]%list_elem_of_filter)%list_elem_of_fmap.
    apply Hr, list_elem_of_fmap. exists r'. split; [|done]. congruence.
  - rewrite filter_cons_False by done. auto.
Qed.

Lemma add_open st p d frame_number object_id class_name contour final :
  connection st = Some (Conn p (Some d) true) →
  let d' := added frame_number object_id class_name contour final d in
  add frame_number object_id class_name contour final st
  = (Ok tt, written p d' (with_view p d' st)).
Proof. intros H d'. now apply (execute_commit _ st p d d'). Qed.



(** C6: [get_max_id()] is 0 on a store without records; on a store with
    records it is the object id of one of them and no record has a larger one;
    after records with the ids 3, 7 and 2 are added to an empty store it is 7. *)
Theorem get_max_id_spec st d :
  view st = Some d →
  (frames d = [] → get_max_id st = (Ok 0, st)) ∧
  (frames d ≠ [] →
     ∃ m, get_max_id st = (Ok m, st) ∧
          (∃ r, r ∈ frames d ∧ r_object r = m) ∧
          (∀ r, r ∈ frames d → (r_object r ≤ m)%Z)) ∧
  (frames d = [] →
     ∀ f1 f2 f3 c1 c2 c3 p1 p2 p3 b1 b2 b3,
     ∃ st', (add f1 3 c1 p1 b1 >> add f2 7 c2 p2 b2 >> add f3 2 c3 p3 b3) st = (Ok tt, st') ∧
            get_max_id st' = (Ok 7, st')).
Proof.
  intros Hv. pose proof Hv as [p Hc]%view_Some.
  unfold get_max_id, bind at 1 2. rewrite (query_view _ st d Hv).
  split; [|split].
  - intros ->. reflexivity.
  - intros Hne. destruct (frames d) as [|r rows] eqn:E; [done|].
    rewrite fmap_cons. simpl sql_max. eexists. split; [reflexivity|].
    destruct (sql_max_spec (r_object r) (r_object <$> rows)) as [Hin Hle].
    rewrite <- fmap_cons in Hin, Hle. split.
    + apply list_elem_of_fmap in Hin as (r' & Heq & Hr'). eauto.
    + intros r' Hr'. apply Hle, list_elem_of_fmap. eauto.
  - intros Hnil f1 f2 f3 c1 c2 c3 p1 p2 p3 b1 b2 b3.
    eexists. split.
    + erewrite bind_Ok by (apply add_open, Hc).
      erewrite bind_Ok by (apply add_open, connection_written).
      apply add_open, connection_written.
    + unfold bind. erewrite query_view by reflexivity.
      simpl. rewrite Hnil. reflexivity.
Qed.

Lemma get_max_id_spec_witness :
  (frames empty_db = [] → get_max_id Demo.fresh = (Ok 0, Demo.fresh)) ∧
  (frames empty_db ≠ [] →
     ∃ m, get_max_id Demo.fresh = (Ok m, Demo.fresh) ∧
          (∃ r, r ∈ frames empty_db ∧ r_object r = m) ∧
          (∀ r, r ∈ frames empty_db → (r_object r ≤ m)%Z)) ∧
  (frames empty_db = [] →
     ∀ f1 f2 f3 c1 c2 c3 p1 p2 p3 b1 b2 b3,
     ∃ st', (add f1 3 c1 p1 b1 >> add f2 7 c2 p2 b2 >> add f3 2 c3 p3 b3) Demo.fresh
            = (Ok tt, st') ∧
            get_max_id st' = (Ok 7, st')).
Proof.
  apply (get_max_id_spec Demo.fresh (Db [] [] [("movie.mp4", 1)])).
  vm_compute. reflexivity.
Defined.

(** C9, amended: on an open store [get_frames_indexes_of_id(obj_id)], for an
    id that SQLite takes, returns
    the frame numbers of the records of [obj_id] in table order, one entry per
    record: a frame is listed exactly when the object has a record in it, no
    frame is listed twice when no object occupies a frame twice, and the list
    is empty when the object has no record. *)
Theorem get_frames_indexes_of_id_table_order st d obj_id :
  view st = Some d →
  sqlite_integer obj_id →
  get_frames_indexes_of_id obj_id st
  = (Ok (r_frame <$> filter (λ r, r_object r = obj_id) (frames d)), st) ∧
  (∀ f, f ∈ occupancy obj_id d ↔ ∃ r, r ∈ frames d ∧ r_object r = obj_id ∧ r_frame r = f) ∧
  (occupancy_unique (frames d) → NoDup (occupancy obj_id d)) ∧
  ((∀ r, r ∈ frames d → r_object r ≠ obj_id) →
   get_frames_indexes_of_id obj_id st = (Ok [], st)).
Proof.
  intros Hv _. split; [apply (get_frames_indexes_of_id_occupancy st d obj_id Hv)|].
  split; [intros f; apply elem_of_occupancy|]. split; [apply NoDup_occupancy|].
  intros Hnone. rewrite (get_frames_indexes_of_id_occupancy st d obj_id Hv).
  assert (occupancy obj_id d = []) as ->; [|done].
  apply elem_of_nil_inv. intros f (r & Hr & Ho & _)%elem_of_occupancy.
  now apply (Hnone r).
Qed.

Lemma get_frames_indexes_of_id_table_order_witness :
  get_frames_indexes_of_id 1 Demo.out_of_order = (Ok [5; 3], Demo.out_of_order).
Proof.
  pose proof (get_frames_indexes_of_id_table_order Demo.out_of_order
                (added 3 1 "car" [1; 2; 3; 4; 5; 6] false
                   (added 5 1 "car" [1; 2; 3; 4; 5; 6] true
                      (Db [] [] [("movie.mp4", 1)]))) 1) as H.
  apply H; [vm_compute; reflexivity|unfold sqlite_integer; lia].
Defined.

(** The frames of object 1 come out as 5, 3 when frame 5 was annotated first:
    the list is not in ascending frame order. *)
Lemma get_frames_indexes_of_id_not_ascending :
  get_frames_indexes_of_id 1 Demo.out_of_order = (Ok [5; 3], Demo.out_of_order)
  ∧ ¬ Sorted Z.le [5; 3].
Proof.
  split; [vm_compute; reflexivity|].
  intros H. inversion H as [|? ? _ Hhd]; subst. inversion Hhd; subst. lia.
Qed.

(** C10: without a video capture [get_frame_image] returns [None], raises
    nothing and leaves the object as it was. *)
Theorem get_frame_image_without_capture st :
  cap st = None → get_frame_image st = (Ok None, st).
Proof. intros H. unfold get_frame_image. now rewrite H. Qed.

Lemma get_frame_image_without_capture_witness :
  get_frame_image (unbound Demo.files) = (Ok None, unbound Demo.files).
Proof. apply get_frame_image_without_capture. reflexivity. Defined.

(** ** Merging two objects *)

Lemma query_closed {A} (q : db → A) st :
  view st = None → ∃ e, query q st = (Raise e, st).
Proof.
  unfold view, query, bind, cursor_db.
  destruct (connection st) as [[p [d|] []]|]; simpl; intros; simplify_eq; eauto.
Qed.

Lemma shared_rows_nil (a b : Z) (d : db) :
  shared_rows a b d = [] ↔ ¬ share_frame a b d.
Proof.
  unfold shared_rows, share_frame. split.
  - intros Hnil (f & (r & Hr & Ho & Hf)%elem_of_occupancy & Hb).
    eapply (filter_nil_not_elem_of _ _ r Hnil); [|exact Hr].
    split; [done|]. now rewrite Hf.
  - intros Hno. apply elem_of_nil_inv. intros r [[Ho Hf] Hr]%list_elem_of_filter.
    apply Hno. exists (r_frame r). split; [|exact Hf].
    apply elem_of_occupancy. eauto.
Qed.

Lemma rows_of_nil (o : Z) (d : db) :
  rows_of o (frames d) = [] ↔ occupancy o d = [].
Proof.
  unfold occupancy. split; [now intros ->|]. apply fmap_nil_inv.
Qed.

Ltac run_query Hv := erewrite bind_Ok by (apply query_view, Hv).

Lemma combine_objects_positive (from_id to_id : Z) :
  (0 < from_id)%Z → (0 < to_id)%Z →
  ((from_id <=? 0)%Z || (to_id <=? 0)%Z) = false.
Proof. intros. apply orb_false_iff. split; apply Z.leb_gt; lia. Qed.


(** A call that raises has changed nothing. *)
Lemma combine_objects_raise st from_id to_id e st' :
  combine_objects from_id to_id st = (Raise e, st') → st' = st.
Proof.
  unfold combine_objects.
  destruct ((from_id <=? 0)%Z || (to_id <=? 0)%Z); [unfold raise; congruence|].
  destruct (view st) as [d|] eqn:Hv.
  - pose proof Hv as [p Hc]%view_Some.
    run_query Hv. destruct (decide _); [unfold raise; congruence|].
    run_query Hv. destruct (decide _); [unfold raise; congruence|].
    run_query Hv. destruct (decide _); [|unfold raise; congruence].
    run_query Hv. destruct (r_class <$> take 1 (rows_of to_id (frames d)));
      [unfold raise; congruence|].
    erewrite execute_commit by (exact Hc || reflexivity). congruence.
  - destruct (query_closed (λ d, rows_of from_id (frames d)) st Hv) as [e' He'].
    erewrite bind_Raise by exact He'. congruence.
Qed.

(** C2: [combine_objects(from_id, to_id)] raises the invalid-id error when an
    id is not positive, the unknown-object error when one of two positive ids
    that SQLite takes has no record, and the overlap error when both have
    records and share a frame; whenever it raises, the object and its files
    are what they were. *)
Theorem combine_objects_rejects st d from_id to_id :
  view st = Some d →
  ((from_id ≤ 0)%Z ∨ (to_id ≤ 0)%Z →
     combine_objects from_id to_id st
     = (Raise (ValueError "object ID's must be positive integers"), st)) ∧
  ((0 < from_id)%Z → (0 < to_id)%Z →
     sqlite_integer from_id → sqlite_integer to_id →
     occupancy from_id d = [] ∨ occupancy to_id d = [] →
     combine_objects from_id to_id st
     = (Raise (ValueError (if decide (occupancy from_id d = [])
                           then "Error: " ++ quoted "From ID" ++ " is not exist"
                           else "Error: " ++ quoted "To ID" ++ " is not exist")), st)) ∧
  ((0 < from_id)%Z → (0 < to_id)%Z →
     occupancy from_id d ≠ [] → occupancy to_id d ≠ [] →
     share_frame from_id to_id d →
     combine_objects from_id to_id st
     = (Raise (ValueError "Error: There are frames with both objects"), st)) ∧
  (sqlite_integer from_id → sqlite_integer to_id →
   (from_id ≤ 0)%Z ∨ (to_id ≤ 0)%Z ∨ occupancy from_id d = [] ∨ occupancy to_id d = []
   ∨ share_frame from_id to_id d →
     ∃ msg, combine_objects from_id to_id st = (Raise (ValueError msg), st)) ∧
  (∀ e st', combine_objects from_id to_id st = (Raise e, st') → st' = st).
Proof.
  intros Hv.
  assert (Hinvalid : (from_id ≤ 0)%Z ∨ (to_id ≤ 0)%Z →
            combine_objects from_id to_id st
            = (Raise (ValueError "object ID's must be positive integers"), st)).
  { intros H. unfold combine_objects.
    assert (((from_id <=? 0)%Z || (to_id <=? 0)%Z) = true) as ->; [|done].
    apply orb_true_iff. rewrite !Z.leb_le. done. }
  assert (Hunknown : (0 < from_id)%Z → (0 < to_id)%Z →
            occupancy from_id d = [] ∨ occupancy to_id d = [] →
            combine_objects from_id to_id st
            = (Raise (ValueError (if decide (occupancy from_id d = [])
                                  then "Error: " ++ quoted "From ID" ++ " is not exist"
                                  else "Error: " ++ quoted "To ID" ++ " is not exist")), st)).
  { intros Ha Hb H. unfold combine_objects. rewrite combine_objects_positive by done.
    run_query Hv. destruct (decide (rows_of from_id (frames d) = [])) as [E|E].
    - apply rows_of_nil in E. now destruct (decide _).
    - rewrite rows_of_nil in E. destruct (decide (occupancy from_id d = [])); [done|].
      destruct H as [H|H]; [done|]. apply rows_of_nil in H.
      run_query Hv. now destruct (decide _). }
  assert (Hshared : (0 < from_id)%Z → (0 < to_id)%Z →
            occupancy from_id d ≠ [] → occupancy to_id d ≠ [] →
            share_frame from_id to_id d →
            combine_objects from_id to_id st
            = (Raise (ValueError "Error: There are frames with both objects"), st)).
  { intros Ha Hb Hfrom Hto Hsh. rewrite <- rows_of_nil in Hfrom, Hto.
    unfold combine_objects. rewrite combine_objects_positive by done.
    run_query Hv. destruct (decide (rows_of from_id (frames d) = [])) as [|_]; [done|].
    run_query Hv. destruct (decide (rows_of to_id (frames d) = [])) as [|_]; [done|].
    run_query Hv. fold (shared_rows from_id to_id d).
    destruct (decide (shared_rows from_id to_id d = [])) as [E|_]; [|done].
    now apply shared_rows_nil in E. }
  repeat apply conj.
  - exact Hinvalid.
  - intros Ha Hb _ _. now apply Hunknown.
  - exact Hshared.
  - intros _ _ H.
    destruct (decide (from_id ≤ 0 ∨ to_id ≤ 0)%Z) as [Hi|Hi]; [eauto|].
    assert ((0 < from_id)%Z ∧ (0 < to_id)%Z) as [Ha Hb] by lia.
    destruct (decide (occupancy from_id d = [] ∨ occupancy to_id d = [])) as [Hu|Hu];
      [eauto|].
    assert (occupancy from_id d ≠ [] ∧ occupancy to_id d ≠ []) as [Hfrom Hto] by tauto.
    eexists. apply Hshared; try done.
    destruct H as [H|[H|[H|[H|H]]]]; try done; lia.
  - apply combine_objects_raise.
Qed.

Lemma combine_objects_rejects_witness :
  combine_objects 0 2 Demo.overlapping
  = (Raise (ValueError "object ID's must be positive integers"), Demo.overlapping) ∧
  combine_objects 1 9 Demo.overlapping
  = (Raise (ValueError ("Error: " ++ quoted "To ID" ++ " is not exist")), Demo.overlapping) ∧
  combine_objects 1 2 Demo.overlapping
  = (Raise (ValueError "Error: There are frames with both objects"), Demo.overlapping).
Proof.
  assert (Hv : view Demo.overlapping = Some Demo.overlapping_db)
    by (vm_compute; reflexivity).
  split; [|split].
  - apply (combine_objects_rejects Demo.overlapping Demo.overlapping_db 0 2 Hv).
    left. lia.
  - apply (combine_objects_rejects Demo.overlapping Demo.overlapping_db 1 9 Hv);
      [lia | lia | unfold sqlite_integer; lia | unfold sqlite_integer; lia
      | right; vm_compute; reflexivity].
  - apply (combine_objects_rejects Demo.overlapping Demo.overlapping_db 1 2 Hv);
      [lia | lia | vm_compute; discriminate | vm_compute; discriminate |].
    exists 1. split; vm_compute; [apply list_elem_of_here|].
    apply list_elem_of_further, list_elem_of_here.
Defined.






(** ** The frame cursor *)

Lemma set_frame_in_range st p d n :
  connection st = Some (Conn p (Some d) true) →
  (1 ≤ n ≤ _num_frames st)%Z →
  set_frame n st
  = (Ok tt, written p (with_cursor n d) (with_view p (with_cursor n d) (set_current_frame n st))).
Proof.
  intros Hc Hn. unfold set_frame, num_frames, gets, bind at 1.
  assert (((n <? 1)%Z || (_num_frames st <? n)%Z) = false) as ->.
  { apply orb_false_iff. split; apply Z.ltb_ge; lia. }
  unfold modify, bind at 1.
  now apply (execute_commit _ (set_current_frame n st) p d (with_cursor n d)).
Qed.

Lemma set_frame_out_of_range st n :
  ¬ (1 ≤ n ≤ _num_frames st)%Z → set_frame n st = (Ok tt, st).
Proof.
  intros Hn. unfold set_frame, num_frames, gets, bind at 1.
  assert (((n <? 1)%Z || (_num_frames st <? n)%Z) = true) as ->; [|done].
  apply orb_true_iff. rewrite !Z.ltb_lt. lia.
Qed.



(** A cursor set within range is found again after the file is closed and
    loaded anew, the video being unchanged. *)
Lemma set_frame_survives_reload abspath VideoCapture st fname d n v c :
  connection st = Some (Conn (abspath fname) (Some d) true) →
  (∃ k rest, session d = (v, k) :: rest) →
  VideoCapture v = Some c → cap_frame_count c = _num_frames st →
  (1 ≤ n ≤ _num_frames st)%Z →
  ∃ st1 st2,
    set_frame n st = (Ok tt, st1) ∧
    (close >> load abspath VideoCapture fname) st1 = (Ok tt, st2) ∧
    current_frame st2 = (Ok n, st2).
Proof.
  intros Hc (k & rest & Hs) Hvid Hcount Hn.
  eexists. eexists. split; [apply (set_frame_in_range st _ d n Hc Hn)|].
  unfold close, bind at 1. simpl.
  unfold load, try_except, connect, bind at 1. simpl.
  rewrite lookup_insert_eq. simpl.
  unfold bind at 1. erewrite query_open by reflexivity.
  simpl. rewrite Hs. simpl.
  unfold open_video. rewrite Hvid. unfold modify, bind at 1 2 3 4. simpl.
  erewrite set_frame_in_range; [split; reflexivity|reflexivity|simpl; lia].
Qed.

(** ** Saving *)

(** C8, amended: [save(path)] returns at once, with the object and the files
    as they were, when [path] is the bound filename; when [path] is the
    reserved temporary name and is not the bound filename it raises the
    illegal-filename error, again with the object and the files as they were. *)
Theorem save_bound_or_reserved abspath VideoCapture st path :
  (_filename st = Some path → save abspath VideoCapture path st = (Ok tt, st)) ∧
  (path = TEMP_WORKING_FILENAME → _filename st ≠ Some path →
     save abspath VideoCapture path st = (Raise (ValueError "Illegal filename"), st)).
Proof.
  unfold save, gets, bind. split.
  - intros ->. now destruct (decide (Some path ≠ Some path)).
  - intros -> Hne.
    destruct (decide (Some TEMP_WORKING_FILENAME ≠ _filename st)) as [_|E].
    + now destruct (decide (TEMP_WORKING_FILENAME = TEMP_WORKING_FILENAME)).
    + exfalso. apply E. congruence.
Qed.

Lemma save_bound_or_reserved_witness :
  save Demo.abspath Demo.VideoCapture "/cwd/.working.atc" Demo.fresh = (Ok tt, Demo.fresh) ∧
  save Demo.abspath Demo.VideoCapture ".working.atc" Demo.fresh
  = (Raise (ValueError "Illegal filename"), Demo.fresh).
Proof.
  split.
  - apply (save_bound_or_reserved Demo.abspath Demo.VideoCapture Demo.fresh).
    vm_compute. reflexivity.
  - apply (save_bound_or_reserved Demo.abspath Demo.VideoCapture Demo.fresh);
      vm_compute; [reflexivity | discriminate].
Defined.

(** A session opened on the working file itself is bound to the reserved
    name, and [save] to that name returns normally instead of raising. *)
Lemma save_reserved_name_when_bound_to_it :
  _filename Demo.reopened = Some TEMP_WORKING_FILENAME ∧
  save Demo.abspath Demo.VideoCapture TEMP_WORKING_FILENAME Demo.reopened
  = (Ok tt, Demo.reopened).
Proof. split; vm_compute; reflexivity. Qed.

(** ** Durability of the mutations *)

Lemma durable_execute_commit (u : db → result db) st d d' st' :
  view st = Some d → u d = Ok d' →
  (execute u >> commit) st = (Ok tt, st') → durable st'.
Proof.
  intros [p Hc]%view_Some Hu. rewrite (execute_commit u st p d d' Hc Hu).
  intros [= <-]. apply durable_written.
Qed.

(** Every mutation other than [add_class] has committed when it returns. *)
Lemma write_contract_durable st d :
  view st = Some d →
  (∀ f o c p b st', add f o c p b st = (Ok tt, st') → durable st') ∧
  (∀ o f st', remove o f st = (Ok tt, st') → durable st') ∧
  (∀ o c st', change_class o c st = (Ok tt, st') → durable st') ∧
  (∀ o f st', finalize_object o f st = (Ok tt, st') → durable st') ∧
  (∀ f st', finalize_frame f st = (Ok tt, st') → durable st') ∧
  (∀ n st', (1 ≤ n ≤ _num_frames st)%Z → set_frame n st = (Ok tt, st') → durable st') ∧
  (∀ a b st', combine_objects a b st = (Ok tt, st') → durable st').
Proof.
  intros Hv. pose proof Hv as [p Hc]%view_Some.
  repeat apply conj.
  - intros f o c pts b st' H. eapply durable_execute_commit; [exact Hv| |exact H]; reflexivity.
  - intros o [f|] st' H; (eapply durable_execute_commit; [exact Hv| |exact H]); reflexivity.
  - intros o c st' H. eapply durable_execute_commit; [exact Hv| |exact H]; reflexivity.
  - intros o f st' H. eapply durable_execute_commit; [exact Hv| |exact H]; reflexivity.
  - intros f st' H. eapply durable_execute_commit; [exact Hv| |exact H]; reflexivity.
  - intros n st' Hn. rewrite (set_frame_in_range st p d n Hc Hn).
    intros [= <-]. apply durable_written.
  - intros a b st'. unfold combine_objects.
    destruct ((a <=? 0)%Z || (b <=? 0)%Z); [unfold raise; congruence|].
    run_query Hv. destruct (decide _); [unfold raise; congruence|].
    run_query Hv. destruct (decide _); [unfold raise; congruence|].
    run_query Hv. destruct (decide _); [|unfold raise; congruence].
    run_query Hv. destruct (r_class <$> take 1 (rows_of b (frames d)));
      [unfold raise; congruence|].
    intros H. eapply durable_execute_commit; [exact Hv| |exact H]; reflexivity.
Qed.

(** C4 fails for [add_class]: on a store whose file is up to date, adding a
    new class name succeeds, the connection sees the name, and the file still
    holds the tables without it, as no commit is issued. *)
Theorem add_class_not_committed st d class_name :
  view st = Some d → stored st = Some d → class_name ∉ classes d →
  ∃ st', add_class class_name st = (Ok tt, st') ∧
         view st' = Some (with_new_class class_name d) ∧
         stored st' = Some d ∧
         disk st' = disk st ∧
         ¬ durable st'.
Proof.
  intros Hv Hs Hnew. pose proof Hv as [p Hc]%view_Some.
  exists (with_view p (with_new_class class_name d) st).
  assert (Hst : stored (with_view p (with_new_class class_name d) st) = Some d).
  { revert Hs. unfold stored. rewrite Hc. done. }
  split.
  { apply (execute_open _ st p d); [done|].
    now destruct (decide (class_name ∈ classes d)). }
  split; [reflexivity|]. split; [exact Hst|]. split; [reflexivity|].
  intros [_ Hd]. rewrite Hst in Hd. simpl in Hd.
  injection Hd as Hd. apply (f_equal (λ x, length (classes x))) in Hd.
  simpl in Hd. rewrite length_app in Hd. simpl in Hd. lia.
Qed.

Lemma add_class_not_committed_witness :
  ∃ st', add_class "car" Demo.committed = (Ok tt, st') ∧
         view st' = Some (Db [] ["car"] [("movie.mp4", 1)]) ∧
         stored st' = Some (Db [] [] [("movie.mp4", 1)]) ∧
         disk st' = disk Demo.committed ∧
         ¬ durable st'.
Proof.
  apply (add_class_not_committed Demo.committed (Db [] [] [("movie.mp4", 1)]) "car").
  - vm_compute. reflexivity.
  - vm_compute. reflexivity.
  - simpl. apply not_elem_of_nil.
Defined.

(** ** The export loop *)




Lemma set_disk_id st : set_disk (disk st) st = st.
Proof. now destruct st. Qed.


(** The buffer of an image has the size of the array exactly when its width
    is a multiple of four. *)
Lemma reshape_fits (w h : Z) :
  (0 < w)%Z → (0 < h)%Z →
  (h * bytesPerLine w = h * w * 3)%Z ↔ (w `mod` 4 = 0)%Z.
Proof.
  intros Hw Hh. unfold bytesPerLine.
  rewrite <- (Z.mul_assoc h w 3), Z.mul_cancel_l by lia.
  pose proof (Z.div_mod w 4 ltac:(lia)) as E.
  pose proof (Z.mod_pos_bound w 4 ltac:(lia)) as B.
  generalize dependent (w `div` 4). generalize dependent (w `mod` 4). intros r B a E.
  assert (r = 0 ∨ r = 1 ∨ r = 2 ∨ r = 3)%Z as [-> | [-> | [-> | ->]]] by lia; subst w.
  - replace ((4 * a + 0) * 24 + 31)%Z with (31 + (3 * a) * 32)%Z by lia.
    rewrite Z.div_add by lia. change (31 `div` 32)%Z with 0%Z. lia.
  - replace ((4 * a + 1) * 24 + 31)%Z with (23 + (3 * a + 1) * 32)%Z by lia.
    rewrite Z.div_add by lia. change (23 `div` 32)%Z with 0%Z. lia.
  - replace ((4 * a + 2) * 24 + 31)%Z with (15 + (3 * a + 2) * 32)%Z by lia.
    rewrite Z.div_add by lia. change (15 `div` 32)%Z with 0%Z. lia.
  - replace ((4 * a + 3) * 24 + 31)%Z with (7 + (3 * a + 3) * 32)%Z by lia.
    rewrite Z.div_add by lia. change (7 `div` 32)%Z with 0%Z. lia.
Qed.

(** A query leaves the object as it is, whatever its outcome. *)
Lemma query_state {A} (q : db → A) st : (query q st).2 = st.
Proof.
  unfold query, bind, cursor_db.
  destruct (connection st) as [[p [d|] []]|]; reflexivity.
Qed.

Section ExportLoop.

Variable abspath : string → string.
Variable drawPolygon : canvas → list (Z * Z) → color → canvas.
Variable wasCanceled : nat → bool.
Variable writable : string → bool.

Lemma draw_records_ok colormap rs img cols :
  (∀ r, r ∈ rs → paintable colormap r) →
  ∃ img', draw_records drawPolygon colormap rs img cols
          = Ok (img', (cols ++ ((λ r, color_of colormap (r_object r)) <$> rs))%list).
Proof.
  revert img cols. induction rs as [|r rs IH]; intros img cols Hrs.
  - exists img. simpl. now rewrite app_nil_r.
  - destruct (Hrs r) as [[pts Hpts] [c Hc]]; [left|].
    simpl. rewrite Hpts, Hc.
    destruct (IH (drawPolygon img (couples pts) c) (cols ++ [c])%list) as [img' ->].
    { intros r' Hr'. apply Hrs. now right. }
    exists img'. unfold color_of. rewrite Hc. simpl. now rewrite <- app_assoc.
Qed.

Lemma draw_records_painted shape colormap rs :
  (∀ r, r ∈ rs → paintable colormap r) →
  draw_records drawPolygon colormap rs (blank_image shape) []
  = Ok (painted drawPolygon shape colormap rs,
        (λ r, color_of colormap (r_object r)) <$> rs).
Proof.
  intros Hrs.
  destruct (draw_records_ok colormap rs (blank_image shape) [] Hrs) as [img Hdraw].
  unfold painted. now rewrite Hdraw.
Qed.

(** A frame that goes through: one without records, or one whose image is
    saved. *)
Lemma export_frame_ok shape dirname filename f colormap inv suffix st d :
  view st = Some d →
  (suffix = ".tiff" → frame_records f d = []) →
  (∀ r, r ∈ frame_records f d → paintable colormap r) →
  export_frame abspath drawPolygon writable shape dirname filename f colormap inv suffix st
  = (Ok tt, set_disk (write_artifact abspath drawPolygon writable shape dirname filename
                        colormap d (disk st) f) st).
Proof.
  intros Hv Htiff Hrs. unfold export_frame, get. run_query Hv.
  fold (frame_records f d). rewrite (draw_records_painted shape colormap _ Hrs).
  unfold write_artifact, image_path.
  destruct (decide (frame_records f d = [])) as [E|E].
  - rewrite E. simpl. now rewrite set_disk_id.
  - rewrite decide_False by (intros H%fmap_nil_inv; done).
    rewrite decide_False by (intros H; now apply E, Htiff).
    unfold qimage_save, modify.
    destruct (writable _); [reflexivity|now rewrite set_disk_id].
Qed.

(** The loop over a first part of the frames that goes through. *)
Lemma export_from_prefix i shape dirname filename done rest colormap inv suffix st d :
  view st = Some d →
  (suffix = ".tiff" → ∀ g, g ∈ done → frame_records g d = []) →
  (∀ j, (j < length done)%nat → wasCanceled (i + j) = false) →
  (∀ r, r ∈ frames d → r_frame r ∈ done → paintable colormap r) →
  export_from abspath drawPolygon wasCanceled writable i shape dirname filename
              (done ++ rest) colormap inv suffix st
  = export_from abspath drawPolygon wasCanceled writable (i + length done) shape dirname
      filename rest colormap inv suffix
      (set_disk (foldl (write_artifact abspath drawPolygon writable shape dirname filename
                          colormap d) (disk st) done) st).
Proof.
  revert i st. induction done as [|f done IH]; intros i st Hv Htiff Hgo Hrs.
  - simpl. now rewrite Nat.add_0_r, set_disk_id.
  - rewrite <- app_comm_cons. cbn [export_from].
    assert (Hi : wasCanceled i = false).
    { rewrite <- (Nat.add_0_r i). apply Hgo. simpl. lia. }
    rewrite Hi.
    erewrite bind_Ok; cycle 1.
    { apply (export_frame_ok _ _ _ _ _ _ _ _ d Hv).
      - intros Ht. apply (Htiff Ht). left.
      - intros r [Hf Hr]%list_elem_of_filter. apply Hrs; [done|]. rewrite Hf. left. }
    rewrite (IH (S i)).
    + simpl. now rewrite Nat.add_succ_r.
    + exact Hv.
    + intros Ht g Hg. apply (Htiff Ht). now right.
    + intros j Hj. replace (S i + j)%nat with (i + S j)%nat by lia.
      apply Hgo. simpl. lia.
    + intros r Hr Hin. apply Hrs; [done|now right].
Qed.

(** Where the loop has written, and where it has not. *)
Lemma foldl_write_none shape dirname filename colormap d requested fs :
  (∀ f, f ∈ requested → frame_records f d = []) →
  foldl (write_artifact abspath drawPolygon writable shape dirname filename colormap d)
        fs requested = fs.
Proof.
  revert fs. induction requested as [|f rest IH]; intros fs Hnone; [done|].
  simpl. unfold write_artifact at 2. rewrite decide_True by (apply Hnone; left).
  apply IH. intros g Hg. apply Hnone. now right.
Qed.



(** The loop over the colours stops at the first of them. *)
Lemma decode_colors_stops cv_image inv path c cs res st :
  decode_colors abspath writable cv_image inv path (c :: cs) res st
  = (Raise (match inv !! c with Some _ => TypeError | None => KeyError end), st).
Proof. simpl. now destruct (inv !! c). Qed.

(** A label-map export leaves the object and the files as they are at every
    frame, whether the frame goes through or not. *)
Lemma export_frame_label_map_state shape dirname filename f colormap inv st :
  (export_frame abspath drawPolygon writable shape dirname filename f colormap inv
                ".tiff" st).2 = st.
Proof.
  unfold export_frame, get, bind.
  pose proof (query_state (λ d, filter (λ r, r_frame r = f) (frames d)) st) as Hq.
  destruct (query _ st) as [[rs|e] st0]; simpl in Hq; subst st0; [|reflexivity].
  destruct (draw_records drawPolygon colormap rs (blank_image shape) [])
    as [[img [|c cs]]|e]; [reflexivity| |reflexivity].
  rewrite decide_False by discriminate. rewrite decide_True by reflexivity.
  destruct (qimage2cv shape img) as [cv|e]; [|reflexivity].
  now rewrite decode_colors_stops.
Qed.

(** The frame at which a label-map export stops. *)
Lemma export_frame_label_map shape dirname filename f colormap inv st d r rs :
  view st = Some d →
  (0 < shape.1)%Z → (0 < shape.2)%Z →
  frame_records f d = r :: rs →
  (∀ r', r' ∈ r :: rs → paintable colormap r') →
  export_frame abspath drawPolygon writable shape dirname filename f colormap inv ".tiff" st
  = (Raise (if decide (shape.1 `mod` 4 = 0)%Z
            then match inv !! color_of colormap (r_object r) with
                 | Some _ => TypeError
                 | None => KeyError
                 end
            else ValueError "cannot reshape array"), st).
Proof.
  intros Hv Hw Hh Hrows Hrs. unfold export_frame, get. run_query Hv.
  fold (frame_records f d). rewrite Hrows.
  rewrite (draw_records_painted shape colormap _ Hrs).
  rewrite fmap_cons, decide_False by discriminate. rewrite decide_True by reflexivity.
  unfold qimage2cv. rewrite decide_False by lia.
  destruct (decide (shape.1 `mod` 4 = 0)%Z) as [Hfit|Hfit].
  - rewrite decide_True by (apply reshape_fits; done).
    apply decode_colors_stops.
  - rewrite decide_False by (rewrite reshape_fits; done). reflexivity.
Qed.

End ExportLoop.

(** C3 fails for the label map: for a shape with pixels and frame numbers
    that SQLite takes, where the dialog is not cancelled and the records can
    be painted, [export] with the suffix [.tiff] raises at the first
    requested frame that has a record and leaves the object and every file as
    they were: no artifact is written for that frame or any other.  The
    error is that of [qimage2cv] when the width is no multiple of four;
    otherwise it is the type error of the in-place sum, or the key error when
    the inverse colormap does not have the colour of the first record. *)
Theorem export_label_map_fails
    (abspath : string → string) (drawPolygon : canvas → list (Z * Z) → color → canvas)
    (wasCanceled : nat → bool) (writable : string → bool)
    (shape : Z * Z) (dirname filename : string) (skipped : list Z) (f : Z) (rest : list Z)
    (colormap : list color) (inverse_colormap : gmap color Z)
    (st : annotation) (d : db) (r : row) (rs : list row) :
  view st = Some d →
  (0 < shape.1)%Z → (0 < shape.2)%Z →
  Forall sqlite_integer (skipped ++ [f]) →
  (∀ j, (j ≤ length skipped)%nat → wasCanceled j = false) →
  (∀ g, g ∈ skipped → frame_records g d = []) →
  frame_records f d = r :: rs →
  (∀ r', r' ∈ r :: rs → paintable colormap r') →
  export abspath drawPolygon wasCanceled writable shape dirname filename
         (skipped ++ f :: rest) colormap inverse_colormap ".tiff" st
  = (Raise (if decide (shape.1 `mod` 4 = 0)%Z
            then match inverse_colormap !! color_of colormap (r_object r) with
                 | Some _ => TypeError
                 | None => KeyError
                 end
            else ValueError "cannot reshape array"), st).
Proof.
  intros Hv Hw Hh _ Hgo Hnone Hrows Hrs. unfold export.
  rewrite (export_from_prefix abspath drawPolygon wasCanceled writable 0 _ _ _ skipped
             (f :: rest) _ _ _ st d Hv).
  - rewrite foldl_write_none by exact Hnone. rewrite set_disk_id.
    simpl. rewrite Hgo by lia.
    erewrite bind_Raise; [reflexivity|].
    now apply (export_frame_label_map _ _ _ _ _ _ _ _ _ _ d r rs).
  - intros _. exact Hnone.
  - intros j Hj. apply Hgo. simpl. lia.
  - intros r' Hr' Hin.
    assert (Hempty : r' ∈ frame_records (r_frame r') d) by (now apply list_elem_of_filter).
    rewrite (Hnone _ Hin) in Hempty. now apply elem_of_nil in Hempty.
Qed.

Lemma export_label_map_fails_witness :
  export Demo.abspath Demo.drawPolygon Demo.wasCanceled Demo.writable (8, 8) "out" "img"
         [7; 1; 3] Demo.colormap Demo.inverse_colormap ".tiff" Demo.disjoint
  = (Raise TypeError, Demo.disjoint).
Proof.
  apply (export_label_map_fails Demo.abspath Demo.drawPolygon Demo.wasCanceled Demo.writable
           (8, 8) "out" "img" [7] 1 [3] Demo.colormap Demo.inverse_colormap
           Demo.disjoint Demo.disjoint_db
           (Row 1 1 "car" (contour_text [0; 0; 2; 0; 2; 2]) 1) []).
  - vm_compute. reflexivity.
  - simpl. lia.
  - simpl. lia.
  - repeat constructor; unfold sqlite_integer; lia.
  - intros j _. reflexivity.
  - intros g ->%list_elem_of_singleton. vm_compute. reflexivity.
  - vm_compute. reflexivity.
  - intros r' ->%list_elem_of_singleton.
    split; vm_compute; eexists; reflexivity.
Defined.

(** * Further properties of the store *)

(** ** Rows under filters and updates *)

Lemma stored_written p d st : stored (written p d (with_view p d st)) = Some d.
Proof. unfold stored, committed_db. simpl. now rewrite lookup_insert_eq. Qed.


Lemma filter_fmap_keep {A} (P : A → Prop) `{∀ x, Decision (P x)} (g : A → A) (l : list A) :
  (∀ x, P (g x) ↔ P x) → filter P (g <$> l) = g <$> filter P l.
Proof.
  intros Hg. induction l as [|a l IH]; [done|]. rewrite fmap_cons.
  destruct (decide (P a)) as [Ha|Ha].
  - rewrite !filter_cons_True by (done || now apply Hg). now rewrite fmap_cons, IH.
  - rewrite !filter_cons_False by (done || now rewrite Hg). exact IH.
Qed.

Lemma fmap_fixed {A} (g : A → A) (l : list A) :
  (∀ x, x ∈ l → g x = x) → g <$> l = l.
Proof.
  intros Hg. induction l as [|a l IH]; [done|]. rewrite fmap_cons.
  rewrite Hg by left. f_equal. apply IH. intros x Hx. apply Hg. now right.
Qed.



Lemma occupancy_unique_fmap_keep (g : row → row) (rows : list row) :
  (∀ r, r_object (g r) = r_object r) → (∀ r, r_frame (g r) = r_frame r) →
  occupancy_unique rows → occupancy_unique (g <$> rows).
Proof.
  intros Ho Hf. unfold occupancy_unique. rewrite <- list_fmap_compose.
  erewrite list_fmap_ext; [done|]. intros i r _. simpl. now rewrite Ho, Hf.
Qed.

Lemma occupancy_unique_filter (P : row → Prop) `{∀ r, Decision (P r)} (rows : list row) :
  occupancy_unique rows → occupancy_unique (filter P rows).
Proof.
  unfold occupancy_unique. intros Hnd. eapply sublist_NoDup; [exact Hnd|].
  apply fmap_sublist, sublist_filter.
Qed.

(** ** Removing records *)





(** ** Relabelling and finalising *)





(** ** The class vocabulary *)



(** ** Adding records *)





(** ** The occupancy invariant *)

(** X8: removing, relabelling, finalising, moving the cursor and adding a
    class keep the invariant that no object is in a frame twice. *)
Theorem occupancy_unique_kept st d :
  view st = Some d → occupancy_unique (frames d) →
  (∀ o f st' d', remove o f st = (Ok tt, st') → view st' = Some d' →
                 occupancy_unique (frames d')) ∧
  (∀ o c st' d', change_class o c st = (Ok tt, st') → view st' = Some d' →
                 occupancy_unique (frames d')) ∧
  (∀ o f st' d', finalize_object o f st = (Ok tt, st') → view st' = Some d' →
                 occupancy_unique (frames d')) ∧
  (∀ f st' d', finalize_frame f st = (Ok tt, st') → view st' = Some d' →
               occupancy_unique (frames d')) ∧
  (∀ n st' d', set_frame n st = (Ok tt, st') → view st' = Some d' →
               occupancy_unique (frames d')) ∧
  (∀ c st' d', add_class c st = (Ok tt, st') → view st' = Some d' →
               occupancy_unique (frames d')).
Proof.
  intros Hv Hu. pose proof Hv as [p Hc]%view_Some.
  assert (Hflag : ∀ (P : row → Prop) `{∀ r, Decision (P r)} (h : row → row),
            (∀ r, r_object (h r) = r_object r) → (∀ r, r_frame (h r) = r_frame r) →
            occupancy_unique ((λ r, if decide (P r) then h r else r) <$> frames d)).
  { intros P HP h Ho Hf. apply occupancy_unique_fmap_keep; [| |done];
      intros r; destruct (decide (P r)); auto. }
  repeat apply conj.
  - intros o [f|] st' d'; unfold remove;
      (erewrite execute_commit; [|exact Hc|reflexivity]);
      intros [= <-] [= <-]; now apply occupancy_unique_filter.
  - intros o c st' d'. unfold change_class.
    erewrite execute_commit; [|exact Hc|reflexivity].
    intros [= <-] [= <-]. now apply (Hflag _ _ (with_class c)).
  - intros o f st' d'. unfold finalize_object.
    erewrite execute_commit; [|exact Hc|reflexivity].
    intros [= <-] [= <-]. now apply (Hflag _ _ (with_final 1)).
  - intros f st' d'. unfold finalize_frame.
    erewrite execute_commit; [|exact Hc|reflexivity].
    intros [= <-] [= <-]. now apply (Hflag _ _ (with_final 1)).
  - intros n st' d'. destruct (decide (1 ≤ n ≤ _num_frames st)%Z) as [Hn|Hn].
    + rewrite (set_frame_in_range st p d n Hc Hn). intros [= <-] [= <-]. exact Hu.
    + rewrite (set_frame_out_of_range st n Hn). intros [= <-] Hv'.
      rewrite Hv in Hv'. injection Hv' as <-. exact Hu.
  - intros c st' d'. unfold add_class, execute, bind, cursor_db. rewrite Hc. simpl.
    destruct (decide (c ∈ classes d)); [discriminate|].
    intros [= <-] [= <-]. exact Hu.
Qed.

Lemma occupancy_unique_kept_witness :
  ∃ st' d', remove 2 (Some 3) Demo.disjoint = (Ok tt, st') ∧ view st' = Some d' ∧
            occupancy_unique (frames d').
Proof.
  destruct (remove 2 (Some 3) Demo.disjoint) as [r st'] eqn:Hrun.
  assert (Hr : r = Ok tt) by (vm_compute in Hrun; congruence). subst r.
  assert (Hv' : ∃ d', view st' = Some d')
    by (vm_compute in Hrun; injection Hrun as <-; eexists; reflexivity).
  destruct Hv' as [d' Hv'].
  destruct (occupancy_unique_kept Demo.disjoint Demo.disjoint_db) as (H & _).
  - vm_compute. reflexivity.
  - unfold occupancy_unique. vm_compute.
    repeat (apply NoDup_cons; split;
            [intros Hin; repeat (apply elem_of_cons in Hin as [Hin|Hin]; [discriminate|]);
             now apply elem_of_nil in Hin|]).
    apply NoDup_nil. exact I.
  - exists st', d'. split; [reflexivity|]. split; [exact Hv'|].
    exact (H 2 (Some 3) st' d' Hrun Hv').
Defined.

(** A merge that succeeded passed every check, and left the merged tables. *)
Lemma combine_objects_Ok_inv st d from_id to_id st' :
  view st = Some d → combine_objects from_id to_id st = (Ok tt, st') →
  ∃ p r0 rest,
    (0 < from_id)%Z ∧ (0 < to_id)%Z ∧
    rows_of from_id (frames d) ≠ [] ∧ rows_of to_id (frames d) = r0 :: rest ∧
    ¬ share_frame from_id to_id d ∧
    st' = written p (merged from_id to_id (r_class r0) d)
            (with_view p (merged from_id to_id (r_class r0) d) st).
Proof.
  intros Hv. pose proof Hv as [p Hc]%view_Some. unfold combine_objects.
  destruct ((from_id <=? 0)%Z || (to_id <=? 0)%Z) eqn:Hpos; [unfold raise; congruence|].
  apply orb_false_iff in Hpos as [Ha%Z.leb_gt Hb%Z.leb_gt].
  run_query Hv. destruct (decide (rows_of from_id (frames d) = [])) as [|Hfrom];
    [unfold raise; congruence|].
  run_query Hv. destruct (decide (rows_of to_id (frames d) = [])) as [|Hto];
    [unfold raise; congruence|].
  run_query Hv. fold (shared_rows from_id to_id d).
  destruct (decide (shared_rows from_id to_id d = [])) as [Hsh|];
    [|unfold raise; congruence].
  apply shared_rows_nil in Hsh.
  run_query Hv. destruct (rows_of to_id (frames d)) as [|r0 rest] eqn:Hrows; [done|].
  simpl. erewrite execute_commit; [|exact Hc|reflexivity].
  intros [= <-]. exists p, r0, rest. repeat split; try done; lia.
Qed.

(** X9: a merge that succeeds keeps the number of records, the frame, contour
    and final flag of every record, the rows of every object other than the
    two, the vocabulary and the session row; it is committed; and when no
    object was in a frame twice before, none is afterwards. *)
Theorem combine_objects_keeps_the_rest st d from_id to_id st' d' :
  view st = Some d →
  combine_objects from_id to_id st = (Ok tt, st') →
  view st' = Some d' →
  stored st' = Some d' ∧
  length (frames d') = length (frames d) ∧
  r_frame <$> frames d' = r_frame <$> frames d ∧
  r_contour <$> frames d' = r_contour <$> frames d ∧
  r_final <$> frames d' = r_final <$> frames d ∧
  (∀ o, o ≠ from_id → o ≠ to_id → rows_of o (frames d') = rows_of o (frames d)) ∧
  classes d' = classes d ∧ session d' = session d ∧
  (occupancy_unique (frames d) → occupancy_unique (frames d')).
Proof.
  intros Hv Hrun Hv'.
  destruct (combine_objects_Ok_inv st d from_id to_id st' Hv Hrun)
    as (p & r0 & rest & Ha & Hb & Hfrom & Hto & Hno & ->).
  injection Hv' as <-. set (c := r_class r0).
  set (g := λ r, if decide (r_object r = from_id) then with_object_class to_id c r else r).
  split; [apply stored_written|].
  split; [apply length_fmap|].
  split.
  { simpl. rewrite <- list_fmap_compose. apply list_fmap_ext. intros i r _.
    simpl. now destruct (decide _). }
  split.
  { simpl. rewrite <- list_fmap_compose. apply list_fmap_ext. intros i r _.
    simpl. now destruct (decide _). }
  split.
  { simpl. rewrite <- list_fmap_compose. apply list_fmap_ext. intros i r _.
    simpl. now destruct (decide _). }
  split.
  { intros o Hoa Hob. unfold rows_of. simpl. fold g.
    rewrite filter_fmap_keep.
    - apply fmap_fixed. intros r [Hr _]%list_elem_of_filter. unfold g.
      rewrite decide_False; [done|congruence].
    - intros r. unfold g. destruct (decide (r_object r = from_id)); [simpl|done].
      split; intros; congruence. }
  split; [reflexivity|]. split; [reflexivity|].
  unfold occupancy_unique. simpl. fold g. intros Hnd.
  set (k := λ fo : Z * Z, (fo.1, if decide (fo.2 = from_id) then to_id else fo.2)).
  assert (Hkeys : (λ r, (r_frame r, r_object r)) <$> (g <$> frames d)
                  = k <$> ((λ r, (r_frame r, r_object r)) <$> frames d)).
  { rewrite <- !list_fmap_compose. apply list_fmap_ext. intros i r _. simpl.
    unfold g, k. simpl. now destruct (decide (r_object r = from_id)). }
  rewrite Hkeys. apply NoDup_fmap_2_strong; [|exact Hnd].
  intros [f1 o1] [f2 o2] (r1 & [= -> ->] & Hr1)%list_elem_of_fmap
         (r2 & [= -> ->] & Hr2)%list_elem_of_fmap.
  unfold k. simpl. intros [= Hf Ho]. f_equal; [done|].
  destruct (decide (r_object r1 = from_id)) as [E1|E1],
           (decide (r_object r2 = from_id)) as [E2|E2]; try congruence.
  - exfalso. apply Hno. exists (r_frame r1). split; apply elem_of_occupancy.
    + exists r1. done.
    + exists r2. split; [done|]. split; congruence.
  - exfalso. apply Hno. exists (r_frame r1). split; apply elem_of_occupancy.
    + exists r2. split; [done|]. split; congruence.
    + exists r1. done.
Qed.

Lemma combine_objects_keeps_the_rest_witness :
  ∃ st' d', combine_objects 1 2 Demo.disjoint = (Ok tt, st') ∧ view st' = Some d' ∧
            length (frames d') = 4%nat ∧ r_frame <$> frames d' = [1; 2; 3; 4].
Proof.
  destruct (combine_objects 1 2 Demo.disjoint) as [r st'] eqn:Hrun.
  assert (Hr : r = Ok tt) by (vm_compute in Hrun; congruence). subst r.
  assert (Hv' : ∃ d', view st' = Some d')
    by (vm_compute in Hrun; injection Hrun as <-; eexists; reflexivity).
  destruct Hv' as [d' Hv'].
  destruct (combine_objects_keeps_the_rest Demo.disjoint Demo.disjoint_db 1 2 st' d')
    as (_ & Hlen & Hfr & _); [vm_compute; reflexivity|exact Hrun|exact Hv'|].
  exists st', d'. repeat split; [exact Hv'|exact Hlen|exact Hfr].
Defined.

(** ** Loading and reloading *)

Section LifeCycle.

Variable abspath : string → string.
Variable VideoCapture : string → option capture.

(** What [load] does to an annotation file whose video opens: the stored
    cursor [k] is taken over when the video has that many frames, and
    ignored otherwise. *)
Lemma load_open st fname d v k rest c :
  disk st !! abspath fname = Some (FAnnotation d) →
  session d = (v, k) :: rest →
  VideoCapture v = Some c →
  ∃ st',
    load abspath VideoCapture fname st = (Ok tt, st') ∧
    _filename st' = Some fname ∧ _video_filename st' = Some v ∧
    cap st' = Some c ∧ _num_frames st' = cap_frame_count c ∧
    connection st' = Some (Conn (abspath fname)
                             (Some (if decide (1 ≤ k ≤ cap_frame_count c)%Z
                                    then with_cursor k d else d)) true) ∧
    _current_frame st' = (if decide (1 ≤ k ≤ cap_frame_count c)%Z
                          then k else _current_frame st) ∧
    disk st' = (if decide (1 ≤ k ≤ cap_frame_count c)%Z
                then <[abspath fname := FAnnotation (with_cursor k d)]> (disk st)
                else disk st).
Proof.
  intros Hfile Hs Hvid.
  unfold load, try_except, connect, bind at 1. rewrite Hfile.
  unfold bind at 1. erewrite query_open by reflexivity.
  rewrite Hs. simpl.
  unfold open_video. rewrite Hvid. unfold modify, bind at 1 2 3 4. simpl.
  destruct (decide (1 ≤ k ≤ cap_frame_count c)%Z) as [Hk|Hk].
  - erewrite set_frame_in_range; [|reflexivity|exact Hk].
    eexists. split; [reflexivity|]. repeat split.
  - rewrite set_frame_out_of_range by exact Hk.
    eexists. split; [reflexivity|]. repeat split.
Qed.

Lemma commit_close st p d :
  connection st = Some (Conn p (Some d) true) →
  (commit >> close) st = (Ok tt, set_connection (Some (Conn p None false)) (written p d st)).
Proof.
  intros Hc. unfold bind. rewrite (commit_open st p d Hc). unfold close. simpl.
  now rewrite Hc.
Qed.


(** X11: a class added with [add_class] and followed by no committing call is
    gone once the file is closed and loaded again: the reloaded vocabulary is
    the one the file held before. *)
Theorem add_class_is_lost_on_reload st fname d v k rest c class_name :
  connection st = Some (Conn (abspath fname) (Some d) true) →
  disk st !! abspath fname = Some (FAnnotation d) →
  class_name ∉ classes d →
  session d = (v, k) :: rest →
  VideoCapture v = Some c →
  ∃ st1 st2 d2,
    add_class class_name st = (Ok tt, st1) ∧
    classes_list st1 = (Ok (classes d ++ [class_name])%list, st1) ∧
    (close >> load abspath VideoCapture fname) st1 = (Ok tt, st2) ∧
    view st2 = Some d2 ∧
    classes_list st2 = (Ok (classes d), st2) ∧
    class_name ∉ classes d2.
Proof.
  intros Hc Hfile Hnew Hs Hvid.
  set (st1 := with_view (abspath fname) (with_new_class class_name d) st).
  set (st1' := set_connection (Some (Conn (abspath fname) None false)) st1).
  destruct (load_open st1' fname d v k rest c) as
    (st2 & Hload & _ & _ & _ & _ & Hconn & _); [exact Hfile|done|done|].
  assert (Hv2 : ∃ d2, view st2 = Some d2 ∧ classes d2 = classes d).
  { unfold view. rewrite Hconn. simpl. eexists. split; [reflexivity|].
    now destruct (decide _). }
  destruct Hv2 as (d2 & Hv2 & Hcl).
  exists st1, st2, d2.
  split.
  { apply (execute_open _ st _ d); [done|]. now rewrite decide_False. }
  split; [unfold classes_list; now erewrite query_view by reflexivity|].
  split; [unfold bind, close; simpl; exact Hload|].
  split; [exact Hv2|].
  split; [unfold classes_list; erewrite query_view by exact Hv2; now rewrite Hcl|].
  now rewrite Hcl.
Qed.

(** X12: what [load] does with a file it cannot use.  A missing file is
    reported as an annotation-file error, after an empty database has been
    created in its place; so is a file that is not an annotation database.
    An annotation whose session table is empty raises [TypeError], and one
    whose video does not open raises the video error with the capture reset;
    in both cases the connection is already bound to the new file while the
    file name of the object is still the old one. *)
Theorem load_failures st fname :
  let corrupted := AnnotationFileError ("error reading annotation " ++ fname
                                        ++ ". file might be corrupted") in
  (disk st !! abspath fname = None →
     ∃ st', load abspath VideoCapture fname st = (Raise corrupted, st') ∧
            disk st' = <[abspath fname := FBlankDb]> (disk st) ∧
            _filename st' = _filename st) ∧
  (∀ f, disk st !! abspath fname = Some f → (∀ d, f ≠ FAnnotation d) →
     ∃ st', load abspath VideoCapture fname st = (Raise corrupted, st') ∧
            disk st' = disk st ∧ _filename st' = _filename st) ∧
  (∀ d, disk st !! abspath fname = Some (FAnnotation d) → session d = [] →
     ∃ st', load abspath VideoCapture fname st = (Raise TypeError, st') ∧
            view st' = Some d ∧ _filename st' = _filename st ∧ disk st' = disk st) ∧
  (∀ d v k rest, disk st !! abspath fname = Some (FAnnotation d) →
     session d = (v, k) :: rest → VideoCapture v = None →
     ∃ st', load abspath VideoCapture fname st
            = (Raise (VideoLoadError ("failed to open video " ++ v
                                      ++ ". file might have been moved or corrupted")), st') ∧
            cap st' = None ∧ view st' = Some d ∧
            _filename st' = _filename st ∧ _current_frame st' = _current_frame st ∧
            disk st' = disk st).
Proof.
  intros corrupted. repeat apply conj.
  - intros Hfile. unfold load, try_except, connect, bind at 1. rewrite Hfile.
    unfold bind, query, bind, cursor_db. simpl. eexists. repeat split.
  - intros f Hfile Hnot. unfold load, try_except, connect, bind at 1. rewrite Hfile.
    destruct f as [d| | | |]; [now destruct (Hnot d)|..];
      unfold bind, query, bind, cursor_db; simpl; eexists; repeat split.
  - intros d Hfile Hs. unfold load, try_except, connect, bind at 1. rewrite Hfile.
    unfold bind at 1. erewrite query_open by reflexivity. rewrite Hs. simpl.
    eexists. repeat split.
  - intros d v k rest Hfile Hs Hvid. unfold load, try_except, connect, bind at 1.
    rewrite Hfile. unfold bind at 1. erewrite query_open by reflexivity.
    rewrite Hs. simpl. unfold open_video. rewrite Hvid.
    unfold modify, raise, bind. simpl. eexists. repeat split.
Qed.

End LifeCycle.


Lemma add_class_is_lost_on_reload_witness :
  ∃ st1 st2,
    add_class "car" Demo.committed = (Ok tt, st1) ∧
    classes_list st1 = (Ok ["car"], st1) ∧
    (close >> load Demo.abspath Demo.VideoCapture ".working.atc") st1 = (Ok tt, st2) ∧
    classes_list st2 = (Ok [], st2).
Proof.
  destruct (add_class_is_lost_on_reload Demo.abspath Demo.VideoCapture Demo.committed
              ".working.atc" (Db [] [] [("movie.mp4", 1)]) "movie.mp4" 1 [] Demo.movie "car")
    as (st1 & st2 & d2 & H1 & Hl1 & Hrun & _ & Hl2 & _);
    [vm_compute; reflexivity|vm_compute; reflexivity|apply not_elem_of_nil
    |reflexivity|reflexivity|].
  exists st1, st2. repeat split; assumption.
Defined.

(** ** Saving under a new name *)

Section Saving.

Variable abspath : string → string.
Variable VideoCapture : string → option capture.

(** The object once [save] has committed, closed and copied. *)
Lemma save_copies st src path d :
  connection st = Some (Conn (abspath src) (Some d) true) →
  abspath path ≠ abspath src →
  (commit >> close >> shutil_copy abspath src path) st
  = (Ok tt, set_disk (<[abspath path := FAnnotation d]>
                        (<[abspath src := FAnnotation d]> (disk st)))
              (set_connection (Some (Conn (abspath src) None false)) st)).
Proof.
  intros Hc Hne. unfold bind at 1. rewrite (commit_open st _ d Hc).
  unfold bind, close. simpl. rewrite Hc. unfold shutil_copy. simpl.
  rewrite lookup_insert_eq. rewrite decide_False by congruence. reflexivity.
Qed.

(** [save(path)] to a file other than the bound one, from a store whose
    video still opens and whose stored cursor is within the video. *)
Lemma save_new_file st src path d v k rest c :
  connection st = Some (Conn (abspath src) (Some d) true) →
  _filename st = Some src →
  path ≠ src → path ≠ TEMP_WORKING_FILENAME →
  abspath path ≠ abspath src →
  session d = (v, k) :: rest → VideoCapture v = Some c →
  (1 ≤ k ≤ cap_frame_count c)%Z →
  ∃ st',
    save abspath VideoCapture path st = (Ok tt, st') ∧
    _filename st' = Some path ∧ _current_frame st' = k ∧
    connection st' = Some (Conn (abspath path) (Some (with_cursor k d)) true) ∧
    disk st' !! abspath TEMP_WORKING_FILENAME = None ∧
    (∀ q, q ≠ abspath TEMP_WORKING_FILENAME →
          disk st' !! q = (<[abspath path := FAnnotation (with_cursor k d)]>
                             (<[abspath src := FAnnotation d]> (disk st))) !! q).
Proof.
  intros Hc Hname Hpath Htemp Hne Hs Hvid Hk.
  set (t := abspath TEMP_WORKING_FILENAME) in *.
  set (fs2 := <[abspath path := FAnnotation d]> (<[abspath src := FAnnotation d]> (disk st))).
  set (st2 := set_disk fs2 (set_connection (Some (Conn (abspath src) None false)) st)).
  set (fs3 := if decide (Some src = Some TEMP_WORKING_FILENAME) then delete t fs2 else fs2).
  set (st3 := set_disk fs3 st2).
  assert (Hfile3 : fs3 !! abspath path = Some (FAnnotation d)).
  { unfold fs3. destruct (decide _) as [E|E];
      [injection E as E; rewrite lookup_delete_ne by (unfold t; congruence)|];
      unfold fs2; apply lookup_insert_eq. }
  destruct (load_open abspath VideoCapture st3 path d v k rest c Hfile3 Hs Hvid) as
    (st4 & Hload & Hname4 & _ & _ & _ & Hconn4 & Hcur4 & Hdisk4).
  rewrite decide_True in Hconn4 by exact Hk.
  rewrite decide_True in Hcur4 by exact Hk.
  rewrite decide_True in Hdisk4 by exact Hk.
  set (st5 := if bool_decide (is_Some (disk st4 !! t))
              then set_disk (delete t (disk st4)) st4 else st4).
  assert (Hsave : save abspath VideoCapture path st = (Ok tt, st5)).
  { unfold save, gets, bind at 1. rewrite Hname.
    rewrite decide_True by congruence. rewrite decide_False by exact Htemp.
    rewrite (bind_Ok commit _ st tt _ (commit_open st _ d Hc)).
    erewrite (bind_Ok close); [|unfold close; simpl; rewrite Hc; reflexivity].
    erewrite (bind_Ok (shutil_copy abspath src path)); cycle 1.
    { unfold shutil_copy. simpl. rewrite lookup_insert_eq.
      rewrite decide_False by congruence. reflexivity. }
    simpl set_disk. fold fs2. change (set_disk fs2 _) with st2.
    assert (Hrm : (if decide (Some src = Some TEMP_WORKING_FILENAME)
                   then os_remove abspath TEMP_WORKING_FILENAME else ret tt) st2
                  = (Ok tt, st3)).
    { unfold st3, fs3. destruct (decide _) as [E|E].
      - injection E as E. unfold os_remove. fold t.
        assert (is_Some (disk st2 !! t)) as [f ->]; [|reflexivity].
        simpl. unfold fs2. rewrite lookup_insert_ne by (unfold t; congruence).
        unfold t. rewrite <- E, lookup_insert_eq. eauto.
      - reflexivity. }
    rewrite (bind_Ok _ _ st2 tt st3 Hrm). rewrite (bind_Ok _ _ st3 tt st4 Hload).
    unfold bind, path_exists, gets. fold t. unfold st5.
    destruct (bool_decide (is_Some (disk st4 !! t))) eqn:Hex; [|reflexivity].
    apply bool_decide_eq_true in Hex as [f Hf]. unfold os_remove. fold t.
    now rewrite Hf. }
  assert (Hfields : _filename st5 = Some path ∧ _current_frame st5 = k ∧
                    connection st5 = connection st4 ∧
                    (∀ q, q ≠ t → disk st5 !! q = disk st4 !! q) ∧ disk st5 !! t = None).
  { unfold st5. destruct (bool_decide (is_Some (disk st4 !! t))) eqn:Hex.
    - simpl. repeat split; try done.
      + intros q Hq. now apply lookup_delete_ne.
      + apply lookup_delete_eq.
    - repeat split; try done. apply bool_decide_eq_false in Hex.
      now apply eq_None_not_Some. }
  destruct Hfields as (Hn5 & Hc5 & Hconn5 & Hother & Hnone).
  exists st5. split; [exact Hsave|]. split; [exact Hn5|]. split; [exact Hc5|].
  split; [now rewrite Hconn5|]. split; [exact Hnone|].
  intros q Hq. rewrite (Hother q Hq), Hdisk4. simpl.
  destruct (decide (abspath path = q)) as [<-|Hpq].
  - now rewrite !lookup_insert_eq.
  - rewrite !lookup_insert_ne by exact Hpq. unfold fs3.
    destruct (decide _); [rewrite lookup_delete_ne by congruence|];
      unfold fs2; now rewrite lookup_insert_ne by exact Hpq.
Qed.


(** X14: [save] to the absolute path of the working file, from a store
    bound to a named file.  The reserved-name test compares with the
    relative name only, so the call goes through: the store is bound to the
    working path, and the closing clean-up then removes the very file it has
    just written and loaded. *)
Theorem save_onto_working_path_deletes_it st src path d v k rest c :
  connection st = Some (Conn (abspath src) (Some d) true) →
  _filename st = Some src →
  path ≠ src → path ≠ TEMP_WORKING_FILENAME →
  abspath path = abspath TEMP_WORKING_FILENAME →
  abspath src ≠ abspath TEMP_WORKING_FILENAME →
  session d = (v, k) :: rest → VideoCapture v = Some c →
  (1 ≤ k ≤ cap_frame_count c)%Z →
  ∃ st',
    save abspath VideoCapture path st = (Ok tt, st') ∧
    filename st' = (Ok (Some path), st') ∧
    view st' = Some (with_cursor k d) ∧
    disk st' !! abspath path = None ∧
    stored st' = None ∧
    disk st' !! abspath src = Some (FAnnotation d).
Proof.
  intros Hc Hname Hpath Htemp Hat Hst Hs Hvid Hk.
  destruct (save_new_file st src path d v k rest c) as
    (st' & Hsave & Hn & Hcur & Hconn & Hnone & Hdisk); try done; [congruence|].
  exists st'. split; [exact Hsave|].
  split; [unfold filename, gets; now rewrite Hn|].
  split; [unfold view; now rewrite Hconn|].
  split; [now rewrite Hat|].
  split; [unfold stored, committed_db; rewrite Hconn; simpl; now rewrite Hat, Hnone|].
  rewrite (Hdisk _ Hst). rewrite lookup_insert_ne by congruence. apply lookup_insert_eq.
Qed.


End Saving.


Lemma save_onto_working_path_deletes_it_witness :
  ∃ st', save Demo.abspath Demo.VideoCapture "/cwd/.working.atc" Demo.named = (Ok tt, st') ∧
         filename st' = (Ok (Some "/cwd/.working.atc"), st') ∧
         disk st' !! "/cwd/.working.atc" = None.
Proof.
  destruct (save_onto_working_path_deletes_it Demo.abspath Demo.VideoCapture Demo.named
              "a.atc" "/cwd/.working.atc" Demo.disjoint_db "movie.mp4" 1 [] Demo.movie)
    as (st' & Hsave & Hn & _ & Hnone & _);
    [vm_compute; reflexivity|vm_compute; reflexivity|discriminate|discriminate
    |vm_compute; reflexivity|vm_compute; discriminate|reflexivity|reflexivity
    |vm_compute; split; discriminate|].
  exists st'. repeat split; assumption.
Defined.


(** ** Opening a session *)

Section Opening.

Variable abspath : string → string.
Variable VideoCapture : string → option capture.

(** The working file as [__init__] prepares it: a leftover is removed. *)
Lemma clear_working_file {A} (k : M A) st :
  abspath (abspath TEMP_WORKING_FILENAME) = abspath TEMP_WORKING_FILENAME →
  (let! leftover := path_exists abspath (abspath TEMP_WORKING_FILENAME) in
   (if leftover then os_remove abspath (abspath TEMP_WORKING_FILENAME) else ret tt) >> k) st
  = k (set_disk (delete (abspath TEMP_WORKING_FILENAME) (disk st)) st).
Proof.
  intros Hidem. unfold bind, path_exists, gets, os_remove. rewrite Hidem.
  destruct (disk st !! abspath TEMP_WORKING_FILENAME) as [f|] eqn:E.
  - rewrite bool_decide_eq_true_2 by eauto. cbv beta iota. now rewrite E.
  - rewrite bool_decide_eq_false_2 by apply is_Some_None.
    unfold ret. rewrite delete_id by exact E. now rewrite set_disk_id.
Qed.

(** X16: [Annotation(video)] for a video file that opens.  Whatever was at
    the working path is discarded; the object is bound to the working path
    with the cursor on frame 1, no records, no classes, and is not saved.
    The tables exist in the working file at once, while the session row is
    so far in the open transaction only. *)
Theorem init_from_video st video c :
  abspath (abspath TEMP_WORKING_FILENAME) = abspath TEMP_WORKING_FILENAME →
  is_Some (disk st !! abspath video) →
  extension video ≠ SUFFIX →
  abspath video ≠ abspath TEMP_WORKING_FILENAME →
  VideoCapture video = Some c →
  ∃ st',
    init abspath VideoCapture video st = (Ok tt, st') ∧
    filename st' = (Ok (Some (abspath TEMP_WORKING_FILENAME)), st') ∧
    current_frame st' = (Ok 1, st') ∧
    num_frames st' = (Ok (cap_frame_count c), st') ∧
    view st' = Some (Db [] [] [(video, 1)]) ∧
    stored st' = Some empty_db ∧
    is_file_saved abspath st' = (Ok false, st') ∧
    get_max_id st' = (Ok 0, st') ∧
    (∀ q, q ≠ abspath TEMP_WORKING_FILENAME → disk st' !! q = disk st !! q).
Proof.
  intros Hidem [f Hvideo] Hext Hne Hvid.
  set (t := abspath TEMP_WORKING_FILENAME) in *.
  eexists. split.
  { unfold init, modify, bind at 1. unfold bind at 1, path_exists at 1, gets. simpl.
    rewrite bool_decide_eq_true_2 by (rewrite Hvideo; eauto). simpl.
    rewrite decide_False by exact Hext.
    cbv zeta. rewrite clear_working_file by exact Hidem.
    unfold create, bind at 1, path_exists, gets. simpl. fold t.
    rewrite lookup_delete_ne by congruence.
    rewrite bool_decide_eq_true_2 by (rewrite Hvideo; eauto). simpl.
    unfold open_video. rewrite Hvid. unfold modify, bind at 1 2 3 4 5. simpl.
    unfold connect, bind at 1. simpl. rewrite Hidem. fold t.
    rewrite lookup_delete_eq.
    unfold create_tables, bind at 1. simpl. rewrite lookup_insert_eq.
    erewrite execute_open; [reflexivity|reflexivity|reflexivity]. }
  simpl. repeat split.
  - unfold stored, committed_db. simpl. now rewrite lookup_insert_eq.
  - unfold is_file_saved, gets. simpl. fold t.
    now rewrite bool_decide_eq_false_2 by (intros H; now apply H).
  - intros q Hq. rewrite !lookup_insert_ne by congruence.
    now rewrite lookup_delete_ne by congruence.
Qed.

(** X17: [Annotation(filename)] for a path that does not exist raises the
    annotation-file error with every attribute reset and no file touched;
    for a video that does not open it raises the video error, by which time
    a leftover working file has already been removed and no new one made. *)
Theorem init_failures st fname :
  (disk st !! abspath fname = None →
     init abspath VideoCapture fname st
     = (Raise (AnnotationFileError ("failed to open annotation " ++ fname)),
        unbound (disk st))) ∧
  (abspath (abspath TEMP_WORKING_FILENAME) = abspath TEMP_WORKING_FILENAME →
   is_Some (disk st !! abspath fname) → extension fname ≠ SUFFIX →
   abspath fname ≠ abspath TEMP_WORKING_FILENAME → VideoCapture fname = None →
     init abspath VideoCapture fname st
     = (Raise (VideoLoadError ("failed to open video " ++ fname
                               ++ ". file might have been moved or corrupted")),
        unbound (delete (abspath TEMP_WORKING_FILENAME) (disk st)))).
Proof.
  split.
  - intros Hnone. unfold init, modify, bind at 1. unfold bind, path_exists, gets. simpl.
    rewrite bool_decide_eq_false_2 by (rewrite Hnone; apply is_Some_None). reflexivity.
  - intros Hidem [f Hfile] Hext Hne Hvid.
    unfold init, modify, bind at 1. unfold bind at 1, path_exists at 1, gets. simpl.
    rewrite bool_decide_eq_true_2 by (rewrite Hfile; eauto). simpl.
    rewrite decide_False by exact Hext.
    cbv zeta. rewrite clear_working_file by exact Hidem.
    unfold create, bind at 1, path_exists, gets. simpl.
    rewrite lookup_delete_ne by congruence.
    rewrite bool_decide_eq_true_2 by (rewrite Hfile; eauto). simpl.
    unfold open_video. rewrite Hvid. reflexivity.
Qed.

End Opening.

Lemma init_from_video_witness :
  ∃ st', init Demo.abspath Demo.VideoCapture "movie.mp4" (unbound Demo.files) = (Ok tt, st') ∧
         filename st' = (Ok (Some "/cwd/.working.atc"), st') ∧
         current_frame st' = (Ok 1, st') ∧
         view st' = Some (Db [] [] [("movie.mp4", 1)]) ∧
         stored st' = Some empty_db ∧
         is_file_saved Demo.abspath st' = (Ok false, st').
Proof.
  destruct (init_from_video Demo.abspath Demo.VideoCapture (unbound Demo.files)
              "movie.mp4" Demo.movie)
    as (st' & Hinit & Hn & Hcur & _ & Hv & Hs & Hsaved & _);
    [reflexivity|vm_compute; eexists; reflexivity|vm_compute; discriminate
    |vm_compute; discriminate|reflexivity|].
  exists st'. repeat split; assumption.
Defined.

(** ** Exports of images, complete and interrupted *)

Section ExportAborts.

Variable abspath : string → string.
Variable drawPolygon : canvas → list (Z * Z) → color → canvas.
Variable wasCanceled : nat → bool.
Variable writable : string → bool.





(** X20: an export in the visual format never looks at the inverse colormap:
    with any two of them the outcome and the files are the same. *)
Theorem export_png_ignores_inverse_colormap
    shape dirname filename requested colormap inv1 inv2 suffix st :
  suffix ≠ ".tiff" →
  export abspath drawPolygon wasCanceled writable shape dirname filename requested
         colormap inv1 suffix st
  = export abspath drawPolygon wasCanceled writable shape dirname filename requested
           colormap inv2 suffix st.
Proof.
  intros Hpng. unfold export. generalize 0%nat. revert st.
  induction requested as [|f rest IH]; intros st i; [done|].
  cbn [export_from]. destruct (wasCanceled i); [done|].
  assert (Hframe : ∀ s, export_frame abspath drawPolygon writable shape dirname filename f
                          colormap inv1 suffix s
                        = export_frame abspath drawPolygon writable shape dirname filename f
                            colormap inv2 suffix s).
  { intros s. unfold export_frame, bind. destruct (get f None s) as [[rs|e] s']; [|done].
    destruct (draw_records drawPolygon colormap rs (blank_image shape) [])
      as [[img cols]|e]; [|done].
    destruct (decide (cols = [])); [done|]. now rewrite !decide_False by exact Hpng. }
  unfold bind. rewrite Hframe.
  destruct (export_frame abspath drawPolygon writable shape dirname filename f colormap inv2
              suffix st) as [[[]|e] s']; [apply IH|done].
Qed.

(** X21: an export of label maps (suffix [.tiff]) writes no file and changes
    nothing of the object, whatever the frames, the colormaps and the shape,
    whether it returns, is cancelled or raises: the loop over the colours of
    a frame never gets to [imwrite]. *)
Theorem export_label_map_writes_nothing
    shape dirname filename requested colormap inv st :
  (export abspath drawPolygon wasCanceled writable shape dirname filename requested
          colormap inv ".tiff" st).2 = st.
Proof.
  unfold export. generalize 0%nat. revert st.
  induction requested as [|f rest IH]; intros st i; [done|].
  cbn [export_from]. destruct (wasCanceled i); [done|].
  unfold bind.
  pose proof (export_frame_label_map_state abspath drawPolygon writable shape dirname
                filename f colormap inv st) as Hst.
  destruct (export_frame abspath drawPolygon writable shape dirname filename f colormap inv
              ".tiff" st) as [[[]|e] s']; simpl in Hst; subst s'; [apply IH|done].
Qed.

End ExportAborts.




Lemma export_png_ignores_inverse_colormap_witness :
  export Demo.abspath Demo.drawPolygon Demo.wasCanceled Demo.writable (8, 8) "out" "img"
         [1; 3] Demo.colormap Demo.inverse_colormap ".png" Demo.disjoint
  = export Demo.abspath Demo.drawPolygon Demo.wasCanceled Demo.writable (8, 8) "out" "img"
           [1; 3] Demo.colormap ∅ ".png" Demo.disjoint.
Proof.
  apply export_png_ignores_inverse_colormap. discriminate.
Defined.

(** ** A store that has been closed *)

(** X22: once [close] has run, the connection refuses every statement: each
    query and each mutation of the tables raises [ProgrammingError] and
    leaves the object and the files as they are, while the attributes still
    answer.  [set_frame] within range is the exception among them: it has
    moved the cursor in memory before its statement is refused. *)
Theorem use_after_close st c :
  connection st = Some c →
  ∃ st',
    close st = (Ok tt, st') ∧ disk st' = disk st ∧ view st' = None ∧
    close st' = (Ok tt, st') ∧
    current_frame st' = (Ok (_current_frame st), st') ∧
    (∀ f o cl pts b, add f o cl pts b st' = (Raise ProgrammingError, st')) ∧
    (∀ cl, add_class cl st' = (Raise ProgrammingError, st')) ∧
    (∀ o f, remove o f st' = (Raise ProgrammingError, st')) ∧
    (∀ f o, get f o st' = (Raise ProgrammingError, st')) ∧
    get_max_id st' = (Raise ProgrammingError, st') ∧
    classes_list st' = (Raise ProgrammingError, st') ∧
    (∀ o, get_frames_indexes_of_id o st' = (Raise ProgrammingError, st')) ∧
    (∀ o cl, change_class o cl st' = (Raise ProgrammingError, st')) ∧
    (∀ o f, finalize_object o f st' = (Raise ProgrammingError, st')) ∧
    (∀ f, finalize_frame f st' = (Raise ProgrammingError, st')) ∧
    (∀ a b, (0 < a)%Z → (0 < b)%Z →
            combine_objects a b st' = (Raise ProgrammingError, st')) ∧
    exit st' = (Raise ProgrammingError, st') ∧
    (∀ n, (1 ≤ n ≤ _num_frames st)%Z →
          set_frame n st' = (Raise ProgrammingError, set_current_frame n st')) ∧
    (∀ n, ¬ (1 ≤ n ≤ _num_frames st)%Z → set_frame n st' = (Ok tt, st')).
Proof.
  intros Hc. exists (set_connection (Some (Conn (conn_path c) None false)) st).
  repeat apply conj; try reflexivity.
  - unfold close. now rewrite Hc.
  - now intros o [f|].
  - now intros f [o|].
  - intros a b Ha Hb. unfold combine_objects.
    assert (((a <=? 0)%Z || (b <=? 0)%Z) = false) as ->; [|reflexivity].
    apply orb_false_iff. split; apply Z.leb_gt; lia.
  - intros n Hn. unfold set_frame, num_frames, gets, bind at 1. simpl.
    assert (((n <? 1)%Z || (_num_frames st <? n)%Z) = false) as ->; [|reflexivity].
    apply orb_false_iff. split; apply Z.ltb_ge; lia.
  - intros n Hn. now apply set_frame_out_of_range.
Qed.

Lemma use_after_close_witness :
  ∃ st', close Demo.disjoint = (Ok tt, st') ∧
         get 1 None st' = (Raise ProgrammingError, st') ∧
         add 5 3 "car" [0; 0] true st' = (Raise ProgrammingError, st') ∧
         set_frame 2 st' = (Raise ProgrammingError, set_current_frame 2 st').
Proof.
  destruct (use_after_close Demo.disjoint
              (Conn "/cwd/.working.atc" (Some Demo.disjoint_db) true))
    as (st' & Hclose & _ & _ & _ & _ & Hadd & _ & _ & Hget & _ & _ & _ & _ & _ & _ & _ & _
        & Hset & _).
  - vm_compute. reflexivity.
  - exists st'. repeat apply conj; [exact Hclose|apply Hget|apply Hadd|].
    apply Hset. vm_compute. split; discriminate.
Defined.

(** ** Reading the frame under the cursor *)



(** ** Contours as text *)

Lemma couples_flat (ps : list (Z * Z)) (tail : list Z) :
  (length tail < 2)%nat →
  couples (concat ((λ p, [p.1; p.2]) <$> ps) ++ tail) = ps.
Proof.
  intros Htail. induction ps as [|[x y] ps IH].
  - destruct tail as [|a [|b tail]]; [reflexivity..|simpl in Htail; lia].
  - simpl. f_equal. exact IH.
Qed.

(** X24: the vertices of a contour, stored by [add] as the text of their
    coordinates x0 y0 x1 y1 ..., are the pairs that [export] reads back and
    hands to the painter; a coordinate left over at the end is dropped
    without an error. *)
Theorem contour_read_back_as_vertices (ps : list (Z * Z)) (tail : list Z) :
  (length tail < 2)%nat →
  couples <$> parse_points (contour_text (concat ((λ p, [p.1; p.2]) <$> ps) ++ tail))
  = Some ps.
Proof.
  intros Htail. rewrite parse_contour_text.
  exact (f_equal Some (couples_flat ps tail Htail)).
Qed.

Lemma contour_read_back_as_vertices_witness :
  couples <$> parse_points (contour_text [0; 0; 1; 0; 1; -1; 5]) = Some [(0, 0); (1, 0); (1, -1)].
Proof.
  apply (contour_read_back_as_vertices [(0, 0); (1, 0); (1, -1)] [5]). simpl. lia.
Defined.

(** ** Opening an annotation file *)

Section Reopening.

Variable abspath : string → string.
Variable VideoCapture : string → option capture.

(** X25: [Annotation(filename)] on an existing file with the annotation
    suffix loads it: the object is bound to that name, with the video of the
    session row, and sees the stored tables.  A stored cursor within the
    video is taken over and written back; one outside it is ignored, and the
    cursor is then 0, as the constructor set it, with no file changed. *)
Theorem init_from_annotation st fname d v k rest c :
  disk st !! abspath fname = Some (FAnnotation d) →
  extension fname = SUFFIX →
  session d = (v, k) :: rest →
  VideoCapture v = Some c →
  ∃ st',
    init abspath VideoCapture fname st = (Ok tt, st') ∧
    filename st' = (Ok (Some fname), st') ∧
    num_frames st' = (Ok (cap_frame_count c), st') ∧
    cap st' = Some c ∧
    ((1 ≤ k ≤ cap_frame_count c)%Z →
       current_frame st' = (Ok k, st') ∧
       view st' = Some (with_cursor k d) ∧ stored st' = Some (with_cursor k d) ∧
       ∀ q, q ≠ abspath fname → disk st' !! q = disk st !! q) ∧
    (¬ (1 ≤ k ≤ cap_frame_count c)%Z →
       current_frame st' = (Ok 0, st') ∧ view st' = Some d ∧ stored st' = Some d ∧
       disk st' = disk st).
Proof.
  intros Hfile Hext Hs Hvid.
  destruct (load_open abspath VideoCapture (unbound (disk st)) fname d v k rest c
              Hfile Hs Hvid)
    as (st' & Hload & Hname & _ & Hcap & Hcount & Hconn & Hcur & Hdisk).
  exists st'. split.
  { unfold init, modify, bind at 1. unfold bind at 1, path_exists, gets. simpl.
    rewrite bool_decide_eq_true_2 by (rewrite Hfile; eauto). simpl.
    now rewrite decide_True by exact Hext. }
  unfold filename, num_frames, current_frame, gets, view, stored, committed_db.
  rewrite Hname, Hcount, Hcap, Hconn, Hcur, Hdisk. simpl.
  repeat apply conj; try reflexivity.
  - intros Hk. rewrite !decide_True by exact Hk. rewrite lookup_insert_eq.
    repeat apply conj; try reflexivity.
    intros q Hq. now apply lookup_insert_ne.
  - intros Hk. rewrite !decide_False by exact Hk. now rewrite Hfile.
Qed.

End Reopening.

Lemma init_from_annotation_witness :
  ∃ st', init Demo.abspath Demo.VideoCapture "a.atc" (unbound (disk Demo.named)) = (Ok tt, st') ∧
         filename st' = (Ok (Some "a.atc"), st') ∧
         get_frames_indexes_of_id 2 st' = (Ok [3; 4], st').
Proof.
  destruct (init_from_annotation Demo.abspath Demo.VideoCapture (unbound (disk Demo.named))
              "a.atc" Demo.disjoint_db "movie.mp4" 1 [] Demo.movie)
    as (st' & Hinit & Hname & _ & _ & Hin & _).
  - vm_compute. reflexivity.
  - vm_compute. reflexivity.
  - vm_compute. reflexivity.
  - reflexivity.
  - exists st'. split; [exact Hinit|]. split; [exact Hname|].
    destruct Hin as (_ & Hv & _); [vm_compute; split; discriminate|].
    rewrite (get_frames_indexes_of_id_occupancy _ _ _ Hv). vm_compute. reflexivity.
Defined.

Lemma load_failures_witness :
  ∃ st', load Demo.abspath Demo.VideoCapture "nope.atc" Demo.fresh
         = (Raise (AnnotationFileError ("error reading annotation " ++ "nope.atc"
                                        ++ ". file might be corrupted")), st') ∧
         disk st' !! "/cwd/nope.atc" = Some FBlankDb.
Proof.
  destruct (load_failures Demo.abspath Demo.VideoCapture Demo.fresh "nope.atc")
    as [Hmissing _].
  destruct Hmissing as (st' & Hload & Hdisk & _); [vm_compute; reflexivity|].
  exists st'. split; [exact Hload|]. rewrite Hdisk. apply lookup_insert_eq.
Defined.

Lemma init_failures_witness :
  init Demo.abspath Demo.VideoCapture "nope.mp4" Demo.disjoint
  = (Raise (AnnotationFileError ("failed to open annotation " ++ "nope.mp4")),
     unbound (disk Demo.disjoint)).
Proof.
  apply (init_failures Demo.abspath Demo.VideoCapture Demo.disjoint "nope.mp4").
  vm_compute. reflexivity.
Defined.
